(** * Moral Vector Analyzer: the point store, the y-cache and the retrying
      analysis client of [src/App.tsx]

    The component [MoralCoordinateAnalyzer] keeps its data in React state
    variables and changes them from event handlers.  The embedding follows
    that shape:

    - a record [State] holds one field per [useState] variable;
    - a handler is a function from the state of the render it closes over
      to the list of effects it performs, in order: calls of the state
      setters (with the updater function the source passes), requests to
      the model endpoint, and timed waits;
    - [run] applies the setter calls of such a list to a state.

    Numbers are JavaScript numbers, that is IEEE 754 binary64 values; they
    are only stored, copied and tested for truthiness here.  Text is a
    [string] of bytes; [trim] and [toLowerCase] are written for ASCII
    text and leave bytes above 127 alone. *)

From Stdlib Require Import ZArith NArith Floats Ascii String DecimalString DecimalN.
From stdpp Require Import gmap strings list fin_maps.

Set Warnings "-inexact-float,-register-all".

(** ** JavaScript values *)

Module JS.

(** The values that can reach the component at run time: what
    [JSON.parse] and [response.json()] build, and [undefined] for a
    property that is not there.  An object is its list of members in
    source order. *)
Inductive value : Type :=
| Undefined
| Null
| Bool (b : bool)
| Num (f : float)
| Str (s : string)
| Arr (items : list value)
| Obj (members : list (string * value)).

(** Own property of an object.  A later member of the same name
    overrides an earlier one, as in an object literal and in
    [JSON.parse]; a name that is not there reads as [undefined]. *)
Fixpoint find_member (k : string) (members : list (string * value)) : option value :=
  match members with
  | [] => None
  | (k', v) :: rest =>
      match find_member k rest with
      | Some later => Some later
      | None => if String.eqb k k' then Some v else None
      end
  end.

Definition member (k : string) (members : list (string * value)) : value :=
  default Undefined (find_member k members).

(** [v.k] for a name [k] that is neither an index nor a built-in
    property of strings and arrays ([candidates], [content], [parts],
    [text], [x], [y], [y_min], ...).  [None] is the [TypeError] thrown
    when [v] is [null] or [undefined]. *)
Definition get (v : value) (k : string) : option value :=
  match v with
  | Undefined | Null => None
  | Obj members => Some (member k members)
  | Bool _ | Num _ | Str _ | Arr _ => Some Undefined
  end.

(** [v[0]]: the first item of an array, the first character of a
    string, the member named ["0"] of an object. *)
Definition get0 (v : value) : option value :=
  match v with
  | Undefined | Null => None
  | Arr items => Some (hd Undefined items)
  | Str (String c _) => Some (Str (String c ""))
  | Obj members => Some (member "0" members)
  | Str "" | Bool _ | Num _ => Some Undefined
  end.

(** Optional chaining: [v?.k] and [v?.[0]] give [undefined] when [v] is
    [null] or [undefined], and never throw. *)
Definition opt_get (v : value) (k : string) : value :=
  default Undefined (get v k).

Definition opt_get0 (v : value) : value :=
  default Undefined (get0 v).

(** ToBoolean.  The falsy values are [undefined], [null], [false], the
    two zeros, NaN and the empty string. *)
Definition truthy (v : value) : bool :=
  match v with
  | Undefined | Null => false
  | Bool b => b
  | Num f => negb (PrimFloat.eqb f 0%float || PrimFloat.is_nan f)
  | Str s => negb (String.eqb s "")
  | Arr _ | Obj _ => true
  end.

(** [Number.prototype.toString] on a natural number: decimal digits. *)
Definition toString (n : N) : string :=
  NilEmpty.string_of_uint (N.to_uint n).

End JS.

Import JS.

(** ** Text *)

Module Text.

(** White space removed by [String.prototype.trim], in the ASCII range:
    TAB, LF, VT, FF, CR and the space. *)
Definition is_white (c : ascii) : bool :=
  let n := N_of_ascii c in
  ((9 <=? n) && (n <=? 13) || (n =? 32))%N.

Fixpoint trimStart (s : string) : string :=
  match s with
  | String c rest => if is_white c then trimStart rest else s
  | "" => ""
  end.

(** The text without its trailing white space: a character is kept when
    it is not white or when something is kept after it. *)
Fixpoint trimEnd (s : string) : string :=
  match s with
  | String c rest =>
      match trimEnd rest with
      | "" => if is_white c then "" else String c ""
      | kept => String c kept
      end
  | "" => ""
  end.

Definition trim (s : string) : string := trimEnd (trimStart s).

Definition lower (c : ascii) : ascii :=
  let n := N_of_ascii c in
  if ((65 <=? n) && (n <=? 90))%N then ascii_of_N (n + 32) else c.

Fixpoint toLowerCase (s : string) : string :=
  match s with
  | String c rest => String (lower c) (toLowerCase rest)
  | "" => ""
  end.

(** [!s] on a string: only the empty string is falsy. *)
Definition is_empty (s : string) : bool :=
  match s with "" => true | _ => false end.

End Text.

(** ** Data model *)

Inductive AnalysisMode : Type := philosopher | seismograph.

(** The mode as the template literal [`${mode}:...`] prints it. *)
Definition mode_name (m : AnalysisMode) : string :=
  match m with
  | philosopher => "philosopher"
  | seismograph => "seismograph"
  end.

(** [type MoralPoint].  The optional bounds are [Undefined] when absent. *)
Module MoralPoint.
Record t : Type := make {
  id : string;
  action : string;
  intent : string;
  x : value;
  y : value;
  yMin : value;
  yMax : value;
  xMin : value;
  xMax : value;
  label : string;
  mode : AnalysisMode;
  showNoise : bool
}.
End MoralPoint.

(** The value type of the [yCache] record: [{ y, yMin?, yMax?, xMin?, xMax? }]. *)
Module CacheEntry.
Record t : Type := make {
  y : value;
  yMin : value;
  yMax : value;
  xMin : value;
  xMax : value
}.
End CacheEntry.

(** The object [callGeminiAPI] resolves to. *)
Module ApiResult.
Record t : Type := make {
  x : value;
  y : value;
  yMin : value;
  yMax : value;
  xMin : value;
  xMax : value
}.
End ApiResult.

(** The state variables of the component.  Keys of [yCache] all contain a
    colon, so none of them meets a property inherited from
    [Object.prototype]: the object used as a dictionary is a finite map.
    The tooltip flag belongs to the chart and is left out. *)
Record State : Type := mkState {
  actionInput : string;
  intentInput : string;
  mode : AnalysisMode;
  points : list MoralPoint.t;
  yCache : gmap string CacheEntry.t;
  isSimulating : bool;
  error : option string;
  notification : option string
}.

Definition initialPoint : MoralPoint.t :=
  {| MoralPoint.id := "1";
     MoralPoint.action := "I abort my child";
     MoralPoint.intent := "My life was in danger";
     MoralPoint.x := Num 0.95;
     MoralPoint.y := Num (-0.3);
     MoralPoint.yMin := Num (-0.8);
     MoralPoint.yMax := Num 0.2;
     MoralPoint.xMin := Num 0.85;
     MoralPoint.xMax := Num 1.0;
     MoralPoint.label := "Abortion for the life of the mother";
     MoralPoint.mode := seismograph;
     MoralPoint.showNoise := true |}.

Definition initialCacheEntry : CacheEntry.t :=
  {| CacheEntry.y := Num (-0.3);
     CacheEntry.yMin := Num (-0.8);
     CacheEntry.yMax := Num 0.2;
     CacheEntry.xMin := Num 0.85;
     CacheEntry.xMax := Num 1.0 |}.

(** The arguments of the [useState] calls. *)
Definition initialState : State :=
  {| actionInput := "";
     intentInput := "";
     mode := seismograph;
     points := [initialPoint];
     yCache := {[ "seismograph:i abort my child" := initialCacheEntry ]};
     isSimulating := false;
     error := None;
     notification := None |}.

(** ** Effects of a handler *)

(** The request of one attempt: the prompt template chosen by the mode,
    with the action and the intent interpolated. *)
Record Prompt : Type := mkPrompt {
  template : AnalysisMode;
  scenario_action : string;
  scenario_intent : string
}.

(** What a handler does, in order.  A setter carries the updater it is
    called with; a setter called with a plain value carries that value. *)
Inductive Effect : Type :=
| SetActionInput (v : string)
| SetIntentInput (v : string)
| SetPoints (f : list MoralPoint.t → list MoralPoint.t)
| SetYCache (f : gmap string CacheEntry.t → gmap string CacheEntry.t)
| SetIsSimulating (b : bool)
| SetError (e : option string)
| SetNotification (n : option string)
| Request (q : Prompt)          (* one [fetch] to the model endpoint *)
| Sleep (ms : Z)                (* [await] of a [setTimeout] promise *)
| Later (ms : Z) (e : Effect).  (* [setTimeout] of a callback, not awaited *)

Definition apply (s : State) (e : Effect) : State :=
  match e with
  | SetActionInput v =>
      mkState v (intentInput s) (mode s) (points s) (yCache s)
              (isSimulating s) (error s) (notification s)
  | SetIntentInput v =>
      mkState (actionInput s) v (mode s) (points s) (yCache s)
              (isSimulating s) (error s) (notification s)
  | SetPoints f =>
      mkState (actionInput s) (intentInput s) (mode s) (f (points s)) (yCache s)
              (isSimulating s) (error s) (notification s)
  | SetYCache f =>
      mkState (actionInput s) (intentInput s) (mode s) (points s) (f (yCache s))
              (isSimulating s) (error s) (notification s)
  | SetIsSimulating b =>
      mkState (actionInput s) (intentInput s) (mode s) (points s) (yCache s)
              b (error s) (notification s)
  | SetError e =>
      mkState (actionInput s) (intentInput s) (mode s) (points s) (yCache s)
              (isSimulating s) e (notification s)
  | SetNotification n =>
      mkState (actionInput s) (intentInput s) (mode s) (points s) (yCache s)
              (isSimulating s) (error s) n
  | Request _ | Sleep _ | Later _ _ => s
  end.

(** The state once the setter calls of [effects] have been applied. *)
Definition run (s : State) (effects : list Effect) : State :=
  foldl apply s effects.

(** A handler invoked on the rendered state [s] and run to its end. *)
Definition handle (handler : State → list Effect) (s : State) : State :=
  run s (handler s).

(** ** The analysis client *)

(** What [callGeminiAPI] throws. *)
Inductive Error : Type :=
| FetchFailed                (* [fetch] rejects: transport failure *)
| ApiError (status : Z)      (* [new Error(`API Error: ${response.status}`)] *)
| BodyUnreadable             (* [response.json()] rejects *)
| NoAnalysisReturned         (* [new Error("No analysis returned")] *)
| SyntaxError                (* [JSON.parse] throws *)
| TypeError.                 (* a property read on [null] *)

Inductive outcome (A : Type) : Type :=
| Return (a : A)
| Throw (e : Error).
Arguments Return {A} a.
Arguments Throw {A} e.

Definition bind {A B : Type} (c : outcome A) (k : A → outcome B) : outcome B :=
  match c with
  | Return a => k a
  | Throw e => Throw e
  end.

Definition orThrow {A : Type} (e : Error) (o : option A) : outcome A :=
  match o with
  | Some a => Return a
  | None => Throw e
  end.

Notation "'let!' a := c 'in' k" := (bind c (fun a => k))
  (at level 10, a name, c at level 100, k at level 200).

(** The answer of the endpoint to one request, with what the built-in
    parsers make of it: [json] is the value [response.json()] resolves to
    ([None] when it rejects) and [parsedText] the value of [JSON.parse]
    on the result text taken out of [json] ([None] when it throws). *)
Record Response : Type := mkResponse {
  ok : bool;
  status : Z;
  json : option value;
  parsedText : option value
}.

(** [data.candidates?.[0]?.content?.parts?.[0]?.text] *)
Definition resultTextOf (data : value) : outcome value :=
  let! candidates := orThrow TypeError (get data "candidates") in
  Return
    (opt_get (opt_get0 (opt_get (opt_get (opt_get0 candidates) "content") "parts")) "text").

(** [callGeminiAPI] from the settled [fetch] on: [reply] is [None] when
    the [fetch] rejects.  The arguments of the source function (action,
    intent, mode) only shape the prompt that is sent; the loop records it
    as a [Request].  The [catch] of the function logs and rethrows. *)
Definition callGeminiAPI (reply : option Response) : outcome ApiResult.t :=
  let! response := orThrow FetchFailed reply in
  if negb (ok response) then Throw (ApiError (status response)) else
  let! data := orThrow BodyUnreadable (json response) in
  let! resultText := resultTextOf data in
  if negb (truthy resultText) then Throw NoAnalysisReturned else
  let! parsed := orThrow SyntaxError (parsedText response) in
  let! x := orThrow TypeError (get parsed "x") in
  let! y := orThrow TypeError (get parsed "y") in
  let! y_min := orThrow TypeError (get parsed "y_min") in
  let! y_max := orThrow TypeError (get parsed "y_max") in
  let! x_min := orThrow TypeError (get parsed "x_min") in
  let! x_max := orThrow TypeError (get parsed "x_max") in
  Return {| ApiResult.x := x;
            ApiResult.y := y;
            ApiResult.yMin := y_min;
            ApiResult.yMax := y_max;
            ApiResult.xMin := x_min;
            ApiResult.xMax := x_max |}.

(** ** The handlers *)

(** What a submission meets outside the component: the reply to its
    [i]-th request, and the reading of the clock ([Date.now()]) when a
    point is built. *)
Record World : Type := mkWorld {
  reply : nat → option Response;
  now : N
}.

(** The prompt of [callGeminiAPI(actionInput, intentInput, mode)]. *)
Definition promptOf (r : State) : Prompt :=
  mkPrompt (mode r) (actionInput r) (intentInput r).

(** [`${mode}:${actionInput.trim().toLowerCase()}`] *)
Definition cacheKey (m : AnalysisMode) (text : string) : string :=
  mode_name m +:+ ":" +:+ Text.toLowerCase (Text.trim text).

Definition actionKey (r : State) : string :=
  cacheKey (mode r) (actionInput r).

(** The object literal stored in the cache: the y values of the answer,
    and no x member. *)
Definition cacheEntryOf (apiResult : ApiResult.t) : CacheEntry.t :=
  {| CacheEntry.y := ApiResult.y apiResult;
     CacheEntry.yMin := ApiResult.yMin apiResult;
     CacheEntry.yMax := ApiResult.yMax apiResult;
     CacheEntry.xMin := Undefined;
     CacheEntry.xMax := Undefined |}.

(** The consistency check: the y values of the point come from the cache
    entry of the render when there is one, from the answer otherwise. *)
Definition finalYs (r : State) (apiResult : ApiResult.t) : value * value * value :=
  match yCache r !! actionKey r with
  | Some cached =>
      (CacheEntry.y cached, CacheEntry.yMin cached, CacheEntry.yMax cached)
  | None =>
      (ApiResult.y apiResult, ApiResult.yMin apiResult, ApiResult.yMax apiResult)
  end.

(** The [else] branch of the check: the answer is stored under the key. *)
Definition storeYs (r : State) (apiResult : ApiResult.t) : list Effect :=
  match yCache r !! actionKey r with
  | Some _ => []
  | None =>
      [SetYCache (λ prev, <[actionKey r := cacheEntryOf apiResult]> prev)]
  end.

Definition newPoint (r : State) (w : World) (apiResult : ApiResult.t) : MoralPoint.t :=
  let '(finalY, finalYMin, finalYMax) := finalYs r apiResult in
  {| MoralPoint.id := toString (now w);
     MoralPoint.action := actionInput r;
     MoralPoint.intent := intentInput r;
     MoralPoint.x := ApiResult.x apiResult;
     MoralPoint.y := finalY;
     MoralPoint.yMin := finalYMin;
     MoralPoint.yMax := finalYMax;
     MoralPoint.xMin := ApiResult.xMin apiResult;
     MoralPoint.xMax := ApiResult.xMax apiResult;
     MoralPoint.label := "Scenario " +:+ toString (N.of_nat (length (points r) + 1));
     MoralPoint.mode := mode r;
     MoralPoint.showNoise := false |}.

(** The body of the inner [try] after the call has resolved. *)
Definition succeed (r : State) (w : World) (apiResult : ApiResult.t) : list Effect :=
  storeYs r apiResult ++
  [SetPoints (λ prev, prev ++ [newPoint r w apiResult]);
   SetActionInput "";
   SetIntentInput "";
   SetIsSimulating false].

Definition failureMessage : string := "AI Analysis failed. Please try again.".

(** The retry loop [for (let i = 0; i < 3; i++)], with [n] rounds left.
    When the rounds are used up the loop is left, [lastError] is thrown
    and the outer [catch] reports. *)
Fixpoint attempts (r : State) (w : World) (n i : nat) : list Effect :=
  match n with
  | O => [SetError (Some failureMessage); SetIsSimulating false]
  | S n' =>
      Request (promptOf r) ::
      match callGeminiAPI (reply w i) with
      | Return apiResult => succeed r w apiResult
      | Throw _ => Sleep (2 ^ Z.of_nat i * 1000) :: attempts r w n' (S i)
      end
  end.

Definition handleAnalyze (w : World) (r : State) : list Effect :=
  if Text.is_empty (actionInput r) || Text.is_empty (intentInput r) then []
  else SetIsSimulating true :: SetError None :: attempts r w 3 0.

(** [setPoints(points.filter(p => p.id !== id))] *)
Definition removePoint (id : string) (r : State) : list Effect :=
  [SetPoints (λ _, filter (λ p, MoralPoint.id p ≠ id) (points r))].

Definition clearAllPoints (r : State) : list Effect :=
  [SetPoints (λ _, [])].

(** [{ ...p, showNoise: !p.showNoise }] *)
Definition flipNoise (p : MoralPoint.t) : MoralPoint.t :=
  {| MoralPoint.id := MoralPoint.id p;
     MoralPoint.action := MoralPoint.action p;
     MoralPoint.intent := MoralPoint.intent p;
     MoralPoint.x := MoralPoint.x p;
     MoralPoint.y := MoralPoint.y p;
     MoralPoint.yMin := MoralPoint.yMin p;
     MoralPoint.yMax := MoralPoint.yMax p;
     MoralPoint.xMin := MoralPoint.xMin p;
     MoralPoint.xMax := MoralPoint.xMax p;
     MoralPoint.label := MoralPoint.label p;
     MoralPoint.mode := MoralPoint.mode p;
     MoralPoint.showNoise := negb (MoralPoint.showNoise p) |}.

Definition toggleNoise (id : string) (r : State) : list Effect :=
  [SetPoints (λ prev,
     map (λ p, if decide (MoralPoint.id p = id) then flipNoise p else p) prev)].

Definition clearCache (r : State) : list Effect :=
  [SetYCache (λ _, ∅);
   SetNotification (Some "Logic Cache Cleared Successfully");
   Later 3000 (SetNotification None)].

(** The two text areas: [onChange] stores the typed text. *)
Definition typeAction (text : string) (r : State) : list Effect :=
  [SetActionInput text].

Definition typeIntent (text : string) (r : State) : list Effect :=
  [SetIntentInput text].

(** ** What the page shows *)

(** The [disabled] attribute of the submit button:
    [!actionInput || !intentInput || isSimulating]. *)
Definition analyzeDisabled (s : State) : bool :=
  Text.is_empty (actionInput s) || Text.is_empty (intentInput s) || isSimulating s.

(** The error banner, [{error && (<div> ... {error}</div>)}]: the text
    shown, if any.  Nothing is shown for [null] nor for the empty text. *)
Definition errorShown (s : State) : option string :=
  match error s with
  | Some m => if Text.is_empty m then None else Some m
  | None => None
  end.

(** [v !== undefined] *)
Definition isDefined (v : value) : bool :=
  match v with
  | Undefined => false
  | _ => true
  end.

(** The test of the noise layer: an ellipse is drawn for the point when
    its flag is set and its four bounds are there. *)
Definition noiseDrawn (pt : MoralPoint.t) : bool :=
  MoralPoint.showNoise pt &&
  isDefined (MoralPoint.xMin pt) && isDefined (MoralPoint.xMax pt) &&
  isDefined (MoralPoint.yMin pt) && isDefined (MoralPoint.yMax pt).

(** [getPointColor], on numbers as its signature has it: [x >= 0] is
    [0 <= x] and both comparisons are false on NaN. *)
Definition getPointColor (x y : float) (ptMode : AnalysisMode) : string :=
  let ge0 (v : float) := PrimFloat.leb 0 v in
  let lt0 (v : float) := PrimFloat.ltb v 0 in
  let legacy :=
    if ge0 x && ge0 y then "#22c55e"
    else if lt0 x && ge0 y then "#a855f7"
    else if lt0 x && lt0 y then "#ef4444"
    else if ge0 x && lt0 y then "#f59e0b"
    else "#64748b" in
  match ptMode with
  | seismograph =>
      if ge0 x && ge0 y then "#34d399"
      else if lt0 x && ge0 y then "#818cf8"
      else if lt0 x && lt0 y then "#f87171"
      else if ge0 x && lt0 y then "#fbbf24"
      else legacy
  | philosopher => legacy
  end.

(** The swatches of the legend under the chart, in their order: the
    background colour and the caption, both chosen by the mode. *)
Definition legend (m : AnalysisMode) : list (string * string) :=
  match m with
  | seismograph =>
      [("#34d399", "Divine / Pure"); ("#818cf8", "Corrupt Good");
       ("#fbbf24", "Tragic Soul"); ("#f87171", "Abomination")]
  | philosopher =>
      [("#22c55e", "Virtuous"); ("#a855f7", "Ulterior");
       ("#f59e0b", "Utilitarian"); ("#ef4444", "Malicious")]
  end.

(** ** Handlers that meet *)

(** Another handler is invoked while a submission is in flight: the
    submission, started on the render [s], has performed [before]; the
    other handler runs on the state as it is then; the submission goes on
    with [after].  The submission keeps reading the render it started on. *)
Definition during (other : State → list Effect) (s : State)
    (before after : list Effect) : State :=
  run (handle other (run s before)) after.

(** A text of ASCII characters only (bytes below 128).  On such a text
    [Text.trim] and [Text.toLowerCase] are [String.prototype.trim] and
    [String.prototype.toLowerCase]: the white space characters below 128
    are TAB, LF, VT, FF, CR and the space, and the only letters that
    change are A to Z.  On other texts the two functions of [Text] leave
    the bytes above 127 alone, where the built-ins trim the Unicode
    spaces and lower the other capital letters. *)
Fixpoint asciiText (t : string) : bool :=
  match t with
  | String c rest => (N_of_ascii c <? 128)%N && asciiText rest
  | "" => true
  end.

(** A text of white space only. *)
Fixpoint blank (t : string) : bool :=
  match t with
  | String c rest => Text.is_white c && blank rest
  | "" => true
  end.

(** The identifiers in the store, in order. *)
Definition pointIds (s : State) : list string :=
  MoralPoint.id <$> points s.

(** What one effect does to the points, to the cache, to the in-flight
    flag and to the action text. *)
Definition applyPoints (ps : list MoralPoint.t) (e : Effect) : list MoralPoint.t :=
  match e with
  | SetPoints f => f ps
  | _ => ps
  end.

Definition applyCache (c : gmap string CacheEntry.t) (e : Effect) : gmap string CacheEntry.t :=
  match e with
  | SetYCache f => f c
  | _ => c
  end.

Definition applyFlag (b : bool) (e : Effect) : bool :=
  match e with
  | SetIsSimulating b' => b'
  | _ => b
  end.

Definition applyAction (text : string) (e : Effect) : string :=
  match e with
  | SetActionInput v => v
  | _ => text
  end.

Definition actionWrites (effects : list Effect) : nat :=
  length (omap (λ e, match e with SetActionInput v => Some v | _ => None end) effects).

(** ** Reading a trace *)

Definition requests (effects : list Effect) : list Prompt :=
  omap (λ e, match e with Request q => Some q | _ => None end) effects.

Definition sleeps (effects : list Effect) : list Z :=
  omap (λ e, match e with Sleep ms => Some ms | _ => None end) effects.

(** The messages a trace surfaces: the arguments of [setError] that the
    page shows.  The banner is rendered by [{error && ...}], so neither
    [setError(null)] nor an empty message surfaces anything. *)
Definition errorsSurfaced (effects : list Effect) : list string :=
  omap (λ e, match e with
             | SetError (Some m) => if Text.is_empty m then None else Some m
             | _ => None
             end) effects.

Definition cacheWrites (effects : list Effect) : nat :=
  length (omap (λ e, match e with SetYCache f => Some f | _ => None end) effects).

Definition pointWrites (effects : list Effect) : nat :=
  length (omap (λ e, match e with SetPoints f => Some f | _ => None end) effects).

(** ** Submissions *)

(** The [i]-th attempt is the first one that resolves, with [a]. *)
Definition succeedsAt (w : World) (i : nat) (a : ApiResult.t) : Prop :=
  i < 3 ∧
  callGeminiAPI (reply w i) = Return a ∧
  ∀ j, j < i → ∃ e, callGeminiAPI (reply w j) = Throw e.

(** Each of the three attempts throws. *)
Definition allFail (w : World) : Prop :=
  ∀ j, j < 3 → ∃ e, callGeminiAPI (reply w j) = Throw e.

(** The user types both texts and presses the button; the submission
    runs to its end. *)
Definition submit (act int : string) (w : World) (s : State) : State :=
  handle (handleAnalyze w) (handle (typeIntent int) (handle (typeAction act) s)).

(** The rounds of the loop that fail: a request, then the wait. *)
Definition failedRounds (q : Prompt) (i k : nat) : list Effect :=
  flat_map (λ j, [Request q; Sleep (2 ^ Z.of_nat j * 1000)]) (seq i k).

(** The texts typed, without the submission. *)
Definition typed (act int : string) (s : State) : State :=
  handle (typeIntent int) (handle (typeAction act) s).

(** The object literal [callGeminiAPI] returns, read off a parsed
    payload on which no property read throws. *)
Definition fieldsOf (parsed : value) : ApiResult.t :=
  {| ApiResult.x := opt_get parsed "x";
     ApiResult.y := opt_get parsed "y";
     ApiResult.yMin := opt_get parsed "y_min";
     ApiResult.yMax := opt_get parsed "y_max";
     ApiResult.xMin := opt_get parsed "x_min";
     ApiResult.xMax := opt_get parsed "x_max" |}.

(** The replies [callGeminiAPI] makes a result of: the status is a
    success, the body is readable, the result text is there and truthy,
    and it parses to [parsed], which is not [null]. *)
Definition usable (rep : option Response) (parsed : value) : Prop :=
  ∃ resp data text,
    rep = Some resp ∧ ok resp = true ∧ json resp = Some data ∧
    resultTextOf data = Return text ∧ truthy text = true ∧
    parsedText resp = Some parsed ∧ parsed ≠ Null ∧ parsed ≠ Undefined.

(** An entry that holds y values only. *)
Definition yOnly (e : CacheEntry.t) : Prop :=
  CacheEntry.xMin e = Undefined ∧ CacheEntry.xMax e = Undefined.

(** ** Sample replies *)

(** The envelope of the endpoint around a result text. *)
Definition envelope (text : string) : value :=
  Obj [("candidates",
        Arr [Obj [("content", Obj [("parts", Arr [Obj [("text", Str text)]])])]])].

(** A full answer: all six fields. *)
Definition fullPayload (x y y_min y_max x_min x_max : float) : value :=
  Obj [("x", Num x); ("y", Num y); ("y_min", Num y_min); ("y_max", Num y_max);
       ("x_min", Num x_min); ("x_max", Num x_max)].

(** The JSON text of an object whose member values are given as text. *)
Definition objectText (fields : list (string * string)) : string :=
  let dq := String (ascii_of_N 34) "" in
  let field (kv : string * string) := dq +:+ kv.1 +:+ dq +:+ ":" +:+ kv.2 in
  "{" +:+ String.concat "," (map field fields) +:+ "}".

Definition answerA : Response :=
  mkResponse true 200
    (Some (envelope (objectText
       [("x", "0.5"); ("y", "-0.25"); ("y_min", "-0.5"); ("y_max", "0");
        ("x_min", "0.25"); ("x_max", "0.75")])))
    (Some (fullPayload 0.5 (-0.25) (-0.5) 0 0.25 0.75)).

Definition answerB : Response :=
  mkResponse true 200
    (Some (envelope (objectText
       [("x", "-1"); ("y", "0.75"); ("y_min", "0.5"); ("y_max", "1");
        ("x_min", "-1"); ("x_max", "-0.5")])))
    (Some (fullPayload (-1) 0.75 0.5 1 (-1) (-0.5))).

(** An answer as the philosopher prompt asks for it: x and y, and no
    bounds. *)
Definition answerXY : Response :=
  mkResponse true 200
    (Some (envelope (objectText [("x", "0.5"); ("y", "-0.25")])))
    (Some (Obj [("x", Num 0.5); ("y", Num (-0.25))])).

(** The text [{}]: it parses, and has none of the fields. *)
Definition answerEmpty : Response :=
  mkResponse true 200 (Some (envelope "{}")) (Some (Obj [])).

(** A text that [JSON.parse] refuses. *)
Definition answerGarbled : Response :=
  mkResponse true 200 (Some (envelope "{x:")) None.

Definition serverError : Response :=
  mkResponse false 503 None None.

(** Every request is answered by [resp]. *)
Definition steady (resp : Response) (clock : N) : World :=
  mkWorld (λ _, Some resp) clock.

(** The first request fails in transport, the later ones get [resp]. *)
Definition flaky (resp : Response) (clock : N) : World :=
  mkWorld (λ i, match i with O => None | S _ => Some resp end) clock.

(** No request gets through. *)
Definition offline (clock : N) : World :=
  mkWorld (λ _, None) clock.

(** * Properties *)

(** ** Text *)

Example trim_lower_sample :
  Text.toLowerCase (Text.trim "  I Abort  my Child  ") = "i abort  my child".
Proof. reflexivity. Qed.

(** ** The retry loop *)

Section Loop.
Variables (r : State) (w : World).

Lemma attempts_resolve (a : ApiResult.t) (n i k : nat) :
  k < n →
  callGeminiAPI (reply w (i + k)) = Return a →
  (∀ j, j < k → ∃ e, callGeminiAPI (reply w (i + j)) = Throw e) →
  attempts r w n i =
    failedRounds (promptOf r) i k ++ Request (promptOf r) :: succeed r w a.
Proof.
  revert i k. induction n as [|n IH]; intros i k Hk Hok Hbefore; [lia|].
  destruct k as [|k].
  - rewrite Nat.add_0_r in Hok. cbn [attempts]. rewrite Hok. reflexivity.
  - destruct (Hbefore 0) as [e He]; [lia|]. rewrite Nat.add_0_r in He.
    cbn [attempts]. rewrite He.
    rewrite (IH (S i) k); [reflexivity | lia | |].
    + replace (S i + k) with (i + S k) by lia. exact Hok.
    + intros j Hj. replace (S i + j) with (i + S j) by lia.
      apply Hbefore. lia.
Qed.

Lemma attempts_exhaust (n i : nat) :
  (∀ j, j < n → ∃ e, callGeminiAPI (reply w (i + j)) = Throw e) →
  attempts r w n i =
    failedRounds (promptOf r) i n ++
    [SetError (Some failureMessage); SetIsSimulating false].
Proof.
  revert i. induction n as [|n IH]; intros i Hall; [reflexivity|].
  destruct (Hall 0) as [e He]; [lia|]. rewrite Nat.add_0_r in He.
  cbn [attempts]. rewrite He. rewrite IH; [reflexivity|].
  intros j Hj. replace (S i + j) with (i + S j) by lia. apply Hall. lia.
Qed.

End Loop.

Lemma run_app (s : State) (l1 l2 : list Effect) :
  run s (l1 ++ l2) = run (run s l1) l2.
Proof. apply foldl_app. Qed.

Lemma run_failedRounds (s : State) (q : Prompt) (i k : nat) :
  run s (failedRounds q i k) = s.
Proof.
  revert i. induction k as [|k IH]; intros i; [reflexivity|].
  cbn. apply IH.
Qed.

Lemma state_eta (s : State) :
  mkState (actionInput s) (intentInput s) (mode s) (points s) (yCache s)
          (isSimulating s) (error s) (notification s) = s.
Proof. destruct s; reflexivity. Qed.

Lemma is_empty_false (t : string) : t ≠ "" → Text.is_empty t = false.
Proof. destruct t; [congruence | reflexivity]. Qed.

(** ** Traces of the loop *)

Lemma requests_failedRounds (q : Prompt) (i k : nat) :
  requests (failedRounds q i k) = replicate k q.
Proof.
  revert i. induction k as [|k IH]; intros i; [reflexivity|].
  cbn. f_equal. apply IH.
Qed.

Lemma sleeps_failedRounds (q : Prompt) (i k : nat) :
  sleeps (failedRounds q i k) = map (λ j, 2 ^ Z.of_nat j * 1000)%Z (seq i k).
Proof.
  revert i. induction k as [|k IH]; intros i; [reflexivity|].
  cbn [seq map]. rewrite <- IH. reflexivity.
Qed.

Lemma cacheWrites_failedRounds (q : Prompt) (i k : nat) :
  cacheWrites (failedRounds q i k) = 0.
Proof.
  revert i. induction k as [|k IH]; intros i; [reflexivity|]. apply IH.
Qed.

Lemma requests_app (l1 l2 : list Effect) :
  requests (l1 ++ l2) = requests l1 ++ requests l2.
Proof. apply omap_app. Qed.

Lemma sleeps_app (l1 l2 : list Effect) :
  sleeps (l1 ++ l2) = sleeps l1 ++ sleeps l2.
Proof. apply omap_app. Qed.

Lemma cacheWrites_app (l1 l2 : list Effect) :
  cacheWrites (l1 ++ l2) = cacheWrites l1 + cacheWrites l2.
Proof. unfold cacheWrites. by rewrite omap_app, length_app. Qed.

Lemma requests_succeed (r : State) (w : World) (a : ApiResult.t) :
  requests (succeed r w a) = [].
Proof. unfold succeed, storeYs. by destruct (yCache r !! actionKey r). Qed.

Lemma sleeps_succeed (r : State) (w : World) (a : ApiResult.t) :
  sleeps (succeed r w a) = [].
Proof. unfold succeed, storeYs. by destruct (yCache r !! actionKey r). Qed.

Lemma requests_attempts (r : State) (w : World) (n i : nat) :
  length (requests (attempts r w n i)) ≤ n.
Proof.
  revert i. induction n as [|n IH]; intros i; [cbn; lia|].
  cbn [attempts]. change (requests (Request ?q :: ?l)) with (q :: requests l).
  destruct (callGeminiAPI (reply w i)).
  - rewrite requests_succeed. cbn. lia.
  - change (requests (Sleep ?ms :: ?l)) with (requests l).
    specialize (IH (S i)). cbn [length]. lia.
Qed.

(** Whatever the replies are, a submission sends at most three requests. *)
Lemma requests_at_most_three (w : World) (s : State) :
  length (requests (handleAnalyze w s)) ≤ 3.
Proof.
  unfold handleAnalyze.
  destruct (Text.is_empty (actionInput s) || Text.is_empty (intentInput s)).
  - cbn. lia.
  - change (requests (?e1 :: ?e2 :: ?l)) with (requests l).
    apply requests_attempts.
Qed.

(** Either some attempt resolves first, or all three throw. *)
Lemma attempt_cases (w : World) :
  (∃ i a, succeedsAt w i a) ∨ allFail w.
Proof.
  destruct (callGeminiAPI (reply w 0)) as [a0|e0] eqn:E0.
  { left. exists 0, a0. repeat split; [lia | done | intros j Hj; lia]. }
  destruct (callGeminiAPI (reply w 1)) as [a1|e1] eqn:E1.
  { left. exists 1, a1. repeat split; [lia | done |].
    intros j Hj. assert (j = 0) as -> by lia. eauto. }
  destruct (callGeminiAPI (reply w 2)) as [a2|e2] eqn:E2.
  { left. exists 2, a2. repeat split; [lia | done |].
    intros j Hj. destruct j as [|[|j]]; [eauto | eauto | lia]. }
  right. intros j Hj. destruct j as [|[|[|j]]]; [eauto | eauto | eauto | lia].
Qed.

(** ** Reading the payload *)

Lemma get_defined (parsed : value) (k : string) :
  parsed ≠ Null → parsed ≠ Undefined → get parsed k = Some (opt_get parsed k).
Proof. destruct parsed; intros; (congruence || reflexivity). Qed.

Lemma find_member_absent (k : string) (members : list (string * value)) :
  k ∉ members.*1 → find_member k members = None.
Proof.
  induction members as [|[k' v] rest IH]; [reflexivity|].
  cbn [fmap list_fmap fst find_member]. intros Hnot.
  apply not_elem_of_cons in Hnot as [Hne Hrest].
  rewrite (IH Hrest).
  destruct (String.eqb_spec k k'); [contradiction | reflexivity].
Qed.

Lemma member_absent (k : string) (members : list (string * value)) :
  k ∉ members.*1 → member k members = Undefined.
Proof. intros Hnot. unfold member. by rewrite find_member_absent. Qed.

Lemma callGeminiAPI_usable (rep : option Response) (parsed : value) :
  usable rep parsed → callGeminiAPI rep = Return (fieldsOf parsed).
Proof.
  intros (resp & data & text & -> & Hok & Hjson & Htext & Htruthy & Hparsed & Hnull & Hundef).
  unfold callGeminiAPI. cbn [orThrow bind].
  rewrite Hok, Hjson. cbn [negb orThrow bind].
  rewrite Htext. cbn [bind]. rewrite Htruthy, Hparsed. cbn [negb orThrow bind].
  rewrite !(get_defined parsed) by done. reflexivity.
Qed.

Lemma callGeminiAPI_returns (rep : option Response) (a : ApiResult.t) :
  callGeminiAPI rep = Return a → ∃ parsed, usable rep parsed ∧ a = fieldsOf parsed.
Proof.
  unfold callGeminiAPI. destruct rep as [resp|]; [|discriminate].
  cbn [orThrow bind].
  destruct (ok resp) eqn:Hok; [|discriminate].
  destruct (json resp) as [data|] eqn:Hjson; [|discriminate].
  cbn [negb orThrow bind].
  destruct (resultTextOf data) as [text|] eqn:Htext; [|discriminate].
  cbn [bind].
  destruct (truthy text) eqn:Htruthy; [|discriminate].
  destruct (parsedText resp) as [parsed|] eqn:Hparsed; [|discriminate].
  cbn [negb orThrow bind]. intros H.
  assert (parsed ≠ Null ∧ parsed ≠ Undefined) as [Hnull Hundef].
  { destruct parsed; try discriminate H; split; discriminate. }
  rewrite !(get_defined parsed) in H by done. cbn [orThrow bind] in H.
  exists parsed. split.
  - by exists resp, data, text.
  - by injection H as <-.
Qed.

(** ** What a submission leaves behind *)

Section Submission.
Variables (w : World) (s : State).
Hypothesis action_given : actionInput s ≠ "".
Hypothesis intent_given : intentInput s ≠ "".

Lemma handleAnalyze_starts :
  handleAnalyze w s = SetIsSimulating true :: SetError None :: attempts s w 3 0.
Proof.
  unfold handleAnalyze.
  rewrite (is_empty_false _ action_given), (is_empty_false _ intent_given).
  reflexivity.
Qed.

Lemma handleAnalyze_resolved (i : nat) (a : ApiResult.t) :
  succeedsAt w i a →
  handleAnalyze w s =
    SetIsSimulating true :: SetError None ::
    failedRounds (promptOf s) 0 i ++ Request (promptOf s) :: succeed s w a.
Proof.
  intros (Hi & Hok & Hbefore). rewrite handleAnalyze_starts.
  by rewrite (attempts_resolve s w a 3 0 i).
Qed.

Lemma handleAnalyze_exhausted :
  allFail w →
  handleAnalyze w s =
    SetIsSimulating true :: SetError None ::
    failedRounds (promptOf s) 0 3 ++
    [SetError (Some failureMessage); SetIsSimulating false].
Proof.
  intros Hall. rewrite handleAnalyze_starts.
  by rewrite (attempts_exhaust s w 3 0).
Qed.

(** The state after a submission that resolves at a cache hit: one point
    more, the texts emptied, the cache as it was. *)
Lemma analyzed_hit (i : nat) (a : ApiResult.t) (cached : CacheEntry.t) :
  succeedsAt w i a →
  yCache s !! actionKey s = Some cached →
  handle (handleAnalyze w) s =
    mkState "" "" (mode s) (points s ++ [newPoint s w a]) (yCache s)
            false None (notification s).
Proof.
  intros Hok Hhit. unfold handle. rewrite (handleAnalyze_resolved i a Hok).
  change (run s (?e1 :: ?e2 :: ?l)) with (run (apply (apply s e1) e2) l).
  rewrite run_app, run_failedRounds.
  unfold succeed, storeYs. rewrite Hhit. reflexivity.
Qed.

(** The same at a cache miss: the answer is stored under the key. *)
Lemma analyzed_miss (i : nat) (a : ApiResult.t) :
  succeedsAt w i a →
  yCache s !! actionKey s = None →
  handle (handleAnalyze w) s =
    mkState "" "" (mode s) (points s ++ [newPoint s w a])
            (<[actionKey s := cacheEntryOf a]> (yCache s))
            false None (notification s).
Proof.
  intros Hok Hmiss. unfold handle. rewrite (handleAnalyze_resolved i a Hok).
  change (run s (?e1 :: ?e2 :: ?l)) with (run (apply (apply s e1) e2) l).
  rewrite run_app, run_failedRounds.
  unfold succeed, storeYs. rewrite Hmiss. reflexivity.
Qed.

(** The state after a submission whose attempts all fail. *)
Lemma analyzed_failed :
  allFail w →
  handle (handleAnalyze w) s =
    mkState (actionInput s) (intentInput s) (mode s) (points s) (yCache s)
            false (Some failureMessage) (notification s).
Proof.
  intros Hall. unfold handle. rewrite (handleAnalyze_exhausted Hall).
  change (run s (?e1 :: ?e2 :: ?l)) with (run (apply (apply s e1) e2) l).
  rewrite run_app, run_failedRounds. reflexivity.
Qed.

End Submission.

Lemma newPoint_hit (s : State) (w : World) (a : ApiResult.t) (cached : CacheEntry.t) :
  yCache s !! actionKey s = Some cached →
  MoralPoint.y (newPoint s w a) = CacheEntry.y cached ∧
  MoralPoint.yMin (newPoint s w a) = CacheEntry.yMin cached ∧
  MoralPoint.yMax (newPoint s w a) = CacheEntry.yMax cached.
Proof. intros Hhit. unfold newPoint, finalYs. by rewrite Hhit. Qed.

Lemma newPoint_miss (s : State) (w : World) (a : ApiResult.t) :
  yCache s !! actionKey s = None →
  MoralPoint.y (newPoint s w a) = ApiResult.y a ∧
  MoralPoint.yMin (newPoint s w a) = ApiResult.yMin a ∧
  MoralPoint.yMax (newPoint s w a) = ApiResult.yMax a.
Proof. intros Hmiss. unfold newPoint, finalYs. by rewrite Hmiss. Qed.

Lemma newPoint_x (s : State) (w : World) (a : ApiResult.t) :
  MoralPoint.x (newPoint s w a) = ApiResult.x a ∧
  MoralPoint.xMin (newPoint s w a) = ApiResult.xMin a ∧
  MoralPoint.xMax (newPoint s w a) = ApiResult.xMax a.
Proof. unfold newPoint. by destruct (finalYs s a) as [[? ?] ?]. Qed.

(** A submission that resolves appends exactly the point it builds. *)
Lemma analyzed_points (w : World) (s : State) (i : nat) (a : ApiResult.t) :
  actionInput s ≠ "" → intentInput s ≠ "" → succeedsAt w i a →
  points (handle (handleAnalyze w) s) = points s ++ [newPoint s w a].
Proof.
  intros Hact Hint Hok. destruct (yCache s !! actionKey s) as [cached|] eqn:Hkey.
  - by rewrite (analyzed_hit w s Hact Hint i a cached).
  - by rewrite (analyzed_miss w s Hact Hint i a).
Qed.

(** Before the attempt that resolves, each failed attempt [j] is
    followed by a wait of [2^j] seconds; nothing is waited for after the
    one that resolves. *)
Lemma sleeps_resolved (w : World) (s : State) (i : nat) (a : ApiResult.t) :
  actionInput s ≠ "" → intentInput s ≠ "" → succeedsAt w i a →
  sleeps (handleAnalyze w s) = map (λ j, 2 ^ Z.of_nat j * 1000)%Z (seq 0 i).
Proof.
  intros Hact Hint Hok. rewrite (handleAnalyze_resolved w s Hact Hint i a Hok).
  change (sleeps (?e1 :: ?e2 :: ?l)) with (sleeps l).
  rewrite sleeps_app, sleeps_failedRounds.
  change (sleeps (Request ?q :: ?l)) with (sleeps l).
  rewrite sleeps_succeed. apply app_nil_r.
Qed.

(** The first attempt resolves; the first fails in transport and the
    second resolves. *)
Ltac resolves_at_once :=
  split; [lia | split; [reflexivity | intros ? ?; lia]].

Ltac resolves_at_second :=
  split; [lia | split; [reflexivity |]];
  let j := fresh "j" in
  intros j ?; assert (j = 0) as -> by lia; by exists FetchFailed.

(** ** The properties of the specification *)

(** C1.  When the key of the submitted action (the mode, a colon, the
    action text trimmed and lower-cased) has an entry in the cache, the
    point built on success has the y, yMin and yMax of that entry,
    whatever the model answered.  Hence two submissions under the same
    mode whose action texts have the same key get the same y, yMin and
    yMax, whatever the intent texts and the two answers are. *)
Theorem C1_cached_y_overrides_answer :
  (∀ (w : World) (s : State) (i : nat) (a : ApiResult.t) (cached : CacheEntry.t),
      actionInput s ≠ "" → intentInput s ≠ "" →
      succeedsAt w i a →
      yCache s !! actionKey s = Some cached →
      ∃ p, points (handle (handleAnalyze w) s) = points s ++ [p] ∧
           MoralPoint.y p = CacheEntry.y cached ∧
           MoralPoint.yMin p = CacheEntry.yMin cached ∧
           MoralPoint.yMax p = CacheEntry.yMax cached)
  ∧
  (∀ (s : State) (act1 int1 act2 int2 : string) (w1 w2 : World)
     (i1 i2 : nat) (a1 a2 : ApiResult.t),
      act1 ≠ "" → int1 ≠ "" → act2 ≠ "" → int2 ≠ "" →
      cacheKey (mode s) act1 = cacheKey (mode s) act2 →
      succeedsAt w1 i1 a1 → succeedsAt w2 i2 a2 →
      ∃ p1 p2,
        points (submit act1 int1 w1 s) = points s ++ [p1] ∧
        points (submit act2 int2 w2 (submit act1 int1 w1 s)) = points s ++ [p1; p2] ∧
        MoralPoint.y p2 = MoralPoint.y p1 ∧
        MoralPoint.yMin p2 = MoralPoint.yMin p1 ∧
        MoralPoint.yMax p2 = MoralPoint.yMax p1).
Proof.
  split.
  - intros w s i a cached Hact Hint Hok Hhit.
    exists (newPoint s w a). split.
    + by apply (analyzed_points w s i a).
    + by apply newPoint_hit.
  - intros s act1 int1 act2 int2 w1 w2 i1 i2 a1 a2 H1 H1' H2 H2' Hkey Hok1 Hok2.
    unfold submit. fold (typed act1 int1 s).
    set (t1 := typed act1 int1 s).
    assert (Hk1 : actionKey t1 = cacheKey (mode s) act1) by reflexivity.
    destruct (yCache t1 !! actionKey t1) as [cached|] eqn:Hlook.
    + (* the key was cached before the first submission *)
      pose proof (analyzed_hit w1 t1 H1 H1' i1 a1 cached Hok1 Hlook) as Hs1.
      rewrite Hs1.
      set (s1 := mkState _ _ _ _ _ _ _ _).
      fold (typed act2 int2 s1). set (t2 := typed act2 int2 s1).
      assert (Hlook2 : yCache t2 !! actionKey t2 = Some cached).
      { change (yCache t1 !! cacheKey (mode s) act2 = Some cached).
        by rewrite <- Hkey, <- Hk1. }
      exists (newPoint t1 w1 a1), (newPoint t2 w2 a2).
      rewrite (analyzed_points w2 t2 i2 a2 H2 H2' Hok2).
      destruct (newPoint_hit t1 w1 a1 cached Hlook) as (-> & -> & ->).
      destruct (newPoint_hit t2 w2 a2 cached Hlook2) as (-> & -> & ->).
      change (points t2) with (points s ++ [newPoint t1 w1 a1]).
      rewrite <- app_assoc. done.
    + (* the first submission stores its answer, the second finds it *)
      pose proof (analyzed_miss w1 t1 H1 H1' i1 a1 Hok1 Hlook) as Hs1.
      rewrite Hs1.
      set (s1 := mkState _ _ _ _ _ _ _ _).
      fold (typed act2 int2 s1). set (t2 := typed act2 int2 s1).
      assert (Hlook2 : yCache t2 !! actionKey t2 = Some (cacheEntryOf a1)).
      { change (<[actionKey t1 := cacheEntryOf a1]> (yCache t1)
                  !! cacheKey (mode s) act2 = Some (cacheEntryOf a1)).
        rewrite <- Hkey, <- Hk1. apply lookup_insert_eq. }
      exists (newPoint t1 w1 a1), (newPoint t2 w2 a2).
      rewrite (analyzed_points w2 t2 i2 a2 H2 H2' Hok2).
      destruct (newPoint_miss t1 w1 a1 Hlook) as (-> & -> & ->).
      destruct (newPoint_hit t2 w2 a2 _ Hlook2) as (-> & -> & ->).
      change (points t2) with (points s ++ [newPoint t1 w1 a1]).
      rewrite <- app_assoc. done.
Qed.

Lemma C1_cached_y_overrides_answer_witness :
  (∃ p, points (handle (handleAnalyze (steady answerA 1700000000000))
                  (typed " I ABORT my child" "Out of fear" initialState))
          = points initialState ++ [p] ∧
        MoralPoint.y p = Num (-0.3) ∧
        MoralPoint.yMin p = Num (-0.8) ∧
        MoralPoint.yMax p = Num 0.2)
  ∧
  (∃ p1 p2,
      points (submit "Lie to a friend" "To spare them" (steady answerA 1000) initialState)
        = points initialState ++ [p1] ∧
      points (submit "  LIE to a Friend " "For money" (flaky answerB 2000)
                (submit "Lie to a friend" "To spare them" (steady answerA 1000) initialState))
        = points initialState ++ [p1; p2] ∧
      MoralPoint.y p2 = MoralPoint.y p1 ∧
      MoralPoint.yMin p2 = MoralPoint.yMin p1 ∧
      MoralPoint.yMax p2 = MoralPoint.yMax p1).
Proof.
  split.
  - apply (proj1 C1_cached_y_overrides_answer
             (steady answerA 1700000000000)
             (typed " I ABORT my child" "Out of fear" initialState)
             0 (fieldsOf (fullPayload 0.5 (-0.25) (-0.5) 0 0.25 0.75))
             initialCacheEntry).
    + discriminate.
    + discriminate.
    + resolves_at_once.
    + vm_compute. reflexivity.
  - apply (proj2 C1_cached_y_overrides_answer initialState
             "Lie to a friend" "To spare them" "  LIE to a Friend " "For money"
             (steady answerA 1000) (flaky answerB 2000) 0 1
             (fieldsOf (fullPayload 0.5 (-0.25) (-0.5) 0 0.25 0.75))
             (fieldsOf (fullPayload (-1) 0.75 0.5 1 (-1) (-0.5)))).
    + discriminate.
    + discriminate.
    + discriminate.
    + discriminate.
    + vm_compute. reflexivity.
    + resolves_at_once.
    + resolves_at_second.
Defined.

(** C2.  On success the x, xMin and xMax of the built point are those of
    the answer of the last request made, for every state of the cache:
    the cache lookup reaches no x value. *)
Theorem C2_x_always_from_latest_answer :
  ∀ (w : World) (s : State) (i : nat) (a : ApiResult.t),
    actionInput s ≠ "" → intentInput s ≠ "" →
    succeedsAt w i a →
    length (requests (handleAnalyze w s)) = S i ∧
    (∃ resp parsed,
        reply w i = Some resp ∧ parsedText resp = Some parsed ∧
        ApiResult.x a = opt_get parsed "x" ∧
        ApiResult.xMin a = opt_get parsed "x_min" ∧
        ApiResult.xMax a = opt_get parsed "x_max") ∧
    ∃ p, points (handle (handleAnalyze w) s) = points s ++ [p] ∧
         MoralPoint.x p = ApiResult.x a ∧
         MoralPoint.xMin p = ApiResult.xMin a ∧
         MoralPoint.xMax p = ApiResult.xMax a.
Proof.
  intros w s i a Hact Hint Hok. split; [|split].
  - rewrite (handleAnalyze_resolved w s Hact Hint i a Hok).
    change (requests (?e1 :: ?e2 :: ?l)) with (requests l).
    rewrite requests_app, requests_failedRounds, length_app, length_replicate.
    change (requests (Request ?q :: ?l)) with (q :: requests l).
    rewrite requests_succeed. cbn. lia.
  - destruct Hok as (_ & Hcall & _).
    apply callGeminiAPI_returns in Hcall
      as (parsed & (resp & data & text & Hreply & _ & _ & _ & _ & Hparsed & _) & ->).
    by exists resp, parsed.
  - exists (newPoint s w a). split.
    + by apply (analyzed_points w s i a).
    + apply newPoint_x.
Qed.

Lemma C2_x_always_from_latest_answer_witness :
  length (requests (handleAnalyze (flaky answerB 1700000000000)
                      (typed " I ABORT my child" "Out of spite" initialState))) = 2 ∧
  (∃ resp parsed,
      reply (flaky answerB 1700000000000) 1 = Some resp ∧ parsedText resp = Some parsed ∧
      Num (-1) = opt_get parsed "x" ∧
      Num (-1) = opt_get parsed "x_min" ∧
      Num (-0.5) = opt_get parsed "x_max") ∧
  ∃ p, points (handle (handleAnalyze (flaky answerB 1700000000000))
                 (typed " I ABORT my child" "Out of spite" initialState))
         = points (typed " I ABORT my child" "Out of spite" initialState) ++ [p] ∧
       MoralPoint.x p = Num (-1) ∧
       MoralPoint.xMin p = Num (-1) ∧
       MoralPoint.xMax p = Num (-0.5).
Proof.
  apply (C2_x_always_from_latest_answer
           (flaky answerB 1700000000000)
           (typed " I ABORT my child" "Out of spite" initialState)
           1 (fieldsOf (fullPayload (-1) 0.75 0.5 1 (-1) (-0.5)))).
  - discriminate.
  - discriminate.
  - resolves_at_second.
Defined.

(** C3, as the code has it.  The payload has x and y and none of the
    four bounds, as the philosopher prompt asks for it.  The call
    resolves, nothing is retried, no error is surfaced, and a point is
    appended whose bounds are [undefined]. *)
Lemma C3_payload_without_bounds_accepted :
  parsedText answerXY = Some (Obj [("x", Num 0.5); ("y", Num (-0.25))]) ∧
  callGeminiAPI (Some answerXY) =
    Return (ApiResult.make (Num 0.5) (Num (-0.25)) Undefined Undefined Undefined Undefined) ∧
  let s := typed "Steal a loaf of bread" "To feed my family" initialState in
  let trace := handleAnalyze (steady answerXY 1700000000000) s in
  length (requests trace) = 1 ∧
  sleeps trace = [] ∧
  errorsSurfaced trace = [] ∧
  ∃ p, points (run s trace) = [initialPoint; p] ∧
       MoralPoint.x p = Num 0.5 ∧ MoralPoint.y p = Num (-0.25) ∧
       MoralPoint.yMin p = Undefined ∧ MoralPoint.yMax p = Undefined ∧
       MoralPoint.xMin p = Undefined ∧ MoralPoint.xMax p = Undefined.
Proof.
  split; [reflexivity|]. split; [reflexivity|].
  cbv zeta. split; [reflexivity|]. split; [reflexivity|]. split; [reflexivity|].
  eexists. split; [reflexivity|]. repeat split.
Qed.

(** The defect beside it.  The call does not look for x and y either,
    though its result type has them as numbers and the list of scenarios
    calls [toFixed] on them: the text [{}] resolves too, and a point
    whose x and y are [undefined] is appended. *)
Lemma payload_without_x_y_accepted :
  parsedText answerEmpty = Some (Obj []) ∧
  callGeminiAPI (Some answerEmpty) =
    Return (ApiResult.make Undefined Undefined Undefined Undefined Undefined Undefined) ∧
  let s := typed "Steal a loaf of bread" "To feed my family" initialState in
  let trace := handleAnalyze (steady answerEmpty 1700000000000) s in
  length (requests trace) = 1 ∧
  sleeps trace = [] ∧
  errorsSurfaced trace = [] ∧
  ∃ p, points (run s trace) = [initialPoint; p] ∧
       MoralPoint.x p = Undefined ∧ MoralPoint.y p = Undefined.
Proof.
  split; [reflexivity|]. split; [reflexivity|].
  cbv zeta. split; [reflexivity|]. split; [reflexivity|]. split; [reflexivity|].
  eexists. split; [reflexivity|]. split; reflexivity.
Qed.

(** C3, amended.  A reply that is not usable (the transport or the
    status failed, the body is unreadable, the result text is missing or
    empty, or it does not parse or parses to [null]) makes the call
    throw: no result is made of it, and the attempt is followed by its
    wait and by the next round of the loop.  The four bounds are
    optional: a usable payload that has numbers for x and y is made a
    result of with or without them, a bound it lacks being [undefined]
    in the result.  The point built from such a result has its x, and
    its x bounds as they are in the result; it has its y and its y
    bounds too when the key has no cache entry, and the y values of the
    entry when it has one. *)
Theorem C3_unparsable_retried_bounds_optional :
  (∀ rep : option Response,
      (∀ parsed, ¬ usable rep parsed) → ∃ e, callGeminiAPI rep = Throw e)
  ∧
  (∀ resp : Response,
      parsedText resp = None ∨ parsedText resp = Some Null →
      ∃ e, callGeminiAPI (Some resp) = Throw e)
  ∧
  (∀ (r : State) (w : World) (n i : nat) (e : Error),
      callGeminiAPI (reply w i) = Throw e →
      attempts r w (S n) i =
        Request (promptOf r) :: Sleep (2 ^ Z.of_nat i * 1000) :: attempts r w n (S i))
  ∧
  (∀ (rep : option Response) (members : list (string * value)) (fx fy : float),
      usable rep (Obj members) →
      member "x" members = Num fx → member "y" members = Num fy →
      callGeminiAPI rep =
        Return (ApiResult.make (Num fx) (Num fy)
                  (member "y_min" members) (member "y_max" members)
                  (member "x_min" members) (member "x_max" members)) ∧
      ∀ k, k ∉ members.*1 → member k members = Undefined)
  ∧
  (∀ (w : World) (s : State) (i : nat) (members : list (string * value)) (fx fy : float),
      actionInput s ≠ "" → intentInput s ≠ "" →
      succeedsAt w i (fieldsOf (Obj members)) →
      member "x" members = Num fx → member "y" members = Num fy →
      ∃ p, points (handle (handleAnalyze w) s) = points s ++ [p] ∧
           MoralPoint.x p = Num fx ∧
           MoralPoint.xMin p = member "x_min" members ∧
           MoralPoint.xMax p = member "x_max" members ∧
           match yCache s !! actionKey s with
           | Some cached =>
               MoralPoint.y p = CacheEntry.y cached ∧
               MoralPoint.yMin p = CacheEntry.yMin cached ∧
               MoralPoint.yMax p = CacheEntry.yMax cached
           | None =>
               MoralPoint.y p = Num fy ∧
               MoralPoint.yMin p = member "y_min" members ∧
               MoralPoint.yMax p = member "y_max" members
           end).
Proof.
  split; [|split; [|split; [|split]]].
  - intros rep Hnone.
    destruct (callGeminiAPI rep) as [a|e] eqn:Hcall; [|by exists e].
    apply callGeminiAPI_returns in Hcall as (parsed & Husable & _).
    by destruct (Hnone parsed).
  - intros resp Hparsed.
    destruct (callGeminiAPI (Some resp)) as [a|e] eqn:Hcall; [|by exists e].
    apply callGeminiAPI_returns in Hcall
      as (parsed & (resp' & data & text & [= <-] & _ & _ & _ & _ & Hsome & Hnull & _) & _).
    destruct Hparsed as [Hp|Hp]; congruence.
  - intros r w n i e Hthrow. cbn [attempts]. by rewrite Hthrow.
  - intros rep members fx fy Husable Hx Hy. split.
    + rewrite (callGeminiAPI_usable rep (Obj members) Husable).
      unfold fieldsOf, opt_get. cbn [get default]. by rewrite Hx, Hy.
    + intros k. apply member_absent.
  - intros w s i members fx fy Hact Hint Hok Hx Hy.
    exists (newPoint s w (fieldsOf (Obj members))). split.
    + by apply (analyzed_points w s i).
    + destruct (newPoint_x s w (fieldsOf (Obj members))) as (Hpx & Hpmin & Hpmax).
      split; [rewrite Hpx; exact Hx|].
      split; [by rewrite Hpmin|]. split; [by rewrite Hpmax|].
      destruct (yCache s !! actionKey s) as [cached|] eqn:Hkey.
      * by apply newPoint_hit.
      * destruct (newPoint_miss s w (fieldsOf (Obj members)) Hkey) as (Hpy & Hpymin & Hpymax).
        split; [rewrite Hpy; exact Hy|].
        split; [by rewrite Hpymin | by rewrite Hpymax].
Qed.

Lemma C3_unparsable_retried_bounds_optional_witness :
  (∃ e, callGeminiAPI (Some answerGarbled) = Throw e)
  ∧
  attempts initialState (steady answerGarbled 0) 2 1 =
    [Request (mkPrompt seismograph "" ""); Sleep 2000] ++
    attempts initialState (steady answerGarbled 0) 1 2
  ∧
  callGeminiAPI (Some answerXY) =
    Return (ApiResult.make (Num 0.5) (Num (-0.25)) Undefined Undefined Undefined Undefined)
  ∧
  (∃ p, points (handle (handleAnalyze (steady answerXY 1700000000000))
                  (typed " I ABORT my child" "Out of fear" initialState))
          = points initialState ++ [p] ∧
        MoralPoint.x p = Num 0.5 ∧
        MoralPoint.xMin p = Undefined ∧
        MoralPoint.xMax p = Undefined ∧
        MoralPoint.y p = Num (-0.3) ∧
        MoralPoint.yMin p = Num (-0.8) ∧
        MoralPoint.yMax p = Num 0.2).
Proof.
  pose proof C3_unparsable_retried_bounds_optional
    as (_ & Hgarbled & Hretry & Hresult & Hpoint).
  split; [|split; [|split]].
  - apply (Hgarbled answerGarbled). by left.
  - apply (Hretry initialState (steady answerGarbled 0) 1 1 SyntaxError). reflexivity.
  - apply (Hresult (Some answerXY) [("x", Num 0.5); ("y", Num (-0.25))]
             0.5%float (-0.25)%float);
      [|reflexivity|reflexivity].
    exists answerXY, (envelope (objectText [("x", "0.5"); ("y", "-0.25")])),
      (Str (objectText [("x", "0.5"); ("y", "-0.25")])).
    repeat split; (reflexivity || discriminate).
  - apply (Hpoint (steady answerXY 1700000000000)
             (typed " I ABORT my child" "Out of fear" initialState)
             0 [("x", Num 0.5); ("y", Num (-0.25))] 0.5%float (-0.25)%float).
    + discriminate.
    + discriminate.
    + resolves_at_once.
    + reflexivity.
    + reflexivity.
Defined.

(** C4, on the code.  When the three attempts throw, the handler sends
    three requests and waits 1000, 2000 and 4000 milliseconds, one wait
    after each of them: the wait of 4000 follows the third request, where
    no retry is left, and only then is the failure reported. *)
Theorem C4_three_attempts_wait_after_each :
  ∀ (w : World) (s : State),
    actionInput s ≠ "" → intentInput s ≠ "" →
    allFail w →
    let q := promptOf s in
    handleAnalyze w s =
      [SetIsSimulating true; SetError None;
       Request q; Sleep 1000;
       Request q; Sleep 2000;
       Request q; Sleep 4000;
       SetError (Some failureMessage); SetIsSimulating false].
Proof.
  intros w s Hact Hint Hall q.
  by rewrite (handleAnalyze_exhausted w s Hact Hint Hall).
Qed.

Lemma C4_three_attempts_wait_after_each_witness :
  handleAnalyze (offline 0) (typed "Steal a loaf of bread" "To feed my family" initialState) =
    [SetIsSimulating true; SetError None;
     Request (mkPrompt seismograph "Steal a loaf of bread" "To feed my family"); Sleep 1000;
     Request (mkPrompt seismograph "Steal a loaf of bread" "To feed my family"); Sleep 2000;
     Request (mkPrompt seismograph "Steal a loaf of bread" "To feed my family"); Sleep 4000;
     SetError (Some failureMessage); SetIsSimulating false].
Proof.
  apply (C4_three_attempts_wait_after_each (offline 0)
           (typed "Steal a loaf of bread" "To feed my family" initialState)).
  - discriminate.
  - discriminate.
  - intros j Hj. by exists FetchFailed.
Defined.

(** C5.  When the three attempts throw, one message is surfaced, the
    text "AI Analysis failed. Please try again.", which the page then
    shows in its banner; neither the points nor the cache are written,
    and the state afterwards has the points and the cache it had, that
    text as its error and the in-flight flag lowered. *)
Theorem C5_exhausted_retries_one_error_nothing_stored :
  ∀ (w : World) (s : State),
    actionInput s ≠ "" → intentInput s ≠ "" →
    allFail w →
    let trace := handleAnalyze w s in
    length (requests trace) = 3 ∧
    errorsSurfaced trace = ["AI Analysis failed. Please try again."] ∧
    pointWrites trace = 0 ∧
    cacheWrites trace = 0 ∧
    points (run s trace) = points s ∧
    yCache (run s trace) = yCache s ∧
    error (run s trace) = Some "AI Analysis failed. Please try again." ∧
    errorShown (run s trace) = Some "AI Analysis failed. Please try again." ∧
    isSimulating (run s trace) = false.
Proof.
  intros w s Hact Hint Hall trace.
  pose proof (analyzed_failed w s Hact Hint Hall) as Hstate.
  unfold handle in Hstate. fold trace in Hstate. rewrite Hstate.
  unfold trace. rewrite (handleAnalyze_exhausted w s Hact Hint Hall).
  repeat split.
Qed.

Lemma C5_exhausted_retries_one_error_nothing_stored_witness :
  let s := typed "Steal a loaf of bread" "To feed my family" initialState in
  let trace := handleAnalyze (steady serverError 0) s in
  length (requests trace) = 3 ∧
  errorsSurfaced trace = ["AI Analysis failed. Please try again."] ∧
  pointWrites trace = 0 ∧
  cacheWrites trace = 0 ∧
  points (run s trace) = points s ∧
  yCache (run s trace) = yCache s ∧
  error (run s trace) = Some "AI Analysis failed. Please try again." ∧
  errorShown (run s trace) = Some "AI Analysis failed. Please try again." ∧
  isSimulating (run s trace) = false.
Proof.
  apply (C5_exhausted_retries_one_error_nothing_stored (steady serverError 0)
           (typed "Steal a loaf of bread" "To feed my family" initialState)).
  - discriminate.
  - discriminate.
  - intros j Hj. by exists (ApiError 503).
Defined.

(** The cache after any submission: as it was, or with the answer stored
    under a key that had no entry. *)
Lemma analyzed_cache (w : World) (s : State) :
  yCache (handle (handleAnalyze w) s) = yCache s ∨
  ∃ a, yCache s !! actionKey s = None ∧
       yCache (handle (handleAnalyze w) s) = <[actionKey s := cacheEntryOf a]> (yCache s).
Proof.
  destruct (Text.is_empty (actionInput s) || Text.is_empty (intentInput s)) eqn:Hempty.
  { left. unfold handle, handleAnalyze. by rewrite Hempty. }
  apply orb_false_elim in Hempty as [Hact Hint].
  assert (actionInput s ≠ "") as Hact' by (intros E; rewrite E in Hact; discriminate).
  assert (intentInput s ≠ "") as Hint' by (intros E; rewrite E in Hint; discriminate).
  destruct (attempt_cases w) as [(i & a & Hok)|Hall].
  - destruct (yCache s !! actionKey s) as [cached|] eqn:Hkey.
    + left. by rewrite (analyzed_hit w s Hact' Hint' i a cached).
    + right. exists a. split; [done|]. by rewrite (analyzed_miss w s Hact' Hint' i a).
  - left. by rewrite (analyzed_failed w s Hact' Hint').
Qed.

(** What [handleAnalyze] writes to the cache holds no x value: a cache of
    y-only entries stays one through any submission. *)
Lemma analyzed_cache_yOnly (w : World) (s : State) :
  (∀ k e, yCache s !! k = Some e → yOnly e) →
  ∀ k e, yCache (handle (handleAnalyze w) s) !! k = Some e → yOnly e.
Proof.
  intros Hinv k e. destruct (analyzed_cache w s) as [->|(a & _ & ->)]; [apply Hinv|].
  rewrite lookup_insert. case_decide; [|apply Hinv].
  intros [= <-]. by split.
Qed.

(** C6, on the code.  The cache the component starts with has one entry,
    under the key of the first scenario, and that entry holds the x
    bounds of the first point besides its y values. *)
Theorem C6_seed_entry_holds_x_bounds :
  yCache initialState !! cacheKey seismograph "I abort my child" = Some initialCacheEntry ∧
  CacheEntry.xMin initialCacheEntry = Num 0.85 ∧
  CacheEntry.xMax initialCacheEntry = Num 1.0 ∧
  CacheEntry.xMin initialCacheEntry = MoralPoint.xMin initialPoint ∧
  CacheEntry.xMax initialCacheEntry = MoralPoint.xMax initialPoint.
Proof. repeat split. Qed.

(** C7.  After the cache is cleared no key has an entry.  A submission
    that then resolves writes the cache once: the y values of the answer
    are stored under the key of the action, and the point built has
    them. *)
Theorem C7_cleared_cache_takes_new_answer :
  ∀ (s : State) (act int : string) (w : World) (i : nat) (a : ApiResult.t),
    act ≠ "" → int ≠ "" →
    succeedsAt w i a →
    let s0 := handle clearCache s in
    let s1 := submit act int w s0 in
    yCache s0 !! cacheKey (mode s) act = None ∧
    cacheWrites (handleAnalyze w (typed act int s0)) = 1 ∧
    yCache s1 = {[ cacheKey (mode s) act := cacheEntryOf a ]} ∧
    CacheEntry.y (cacheEntryOf a) = ApiResult.y a ∧
    CacheEntry.yMin (cacheEntryOf a) = ApiResult.yMin a ∧
    CacheEntry.yMax (cacheEntryOf a) = ApiResult.yMax a ∧
    ∃ p, points s1 = points s ++ [p] ∧
         MoralPoint.y p = ApiResult.y a ∧
         MoralPoint.yMin p = ApiResult.yMin a ∧
         MoralPoint.yMax p = ApiResult.yMax a.
Proof.
  intros s act int w i a Hact Hint Hok s0 s1.
  set (t := typed act int s0).
  assert (Hmiss : yCache t !! actionKey t = None) by apply lookup_empty.
  split; [apply lookup_empty|]. split.
  { fold t. rewrite (handleAnalyze_resolved w t Hact Hint i a Hok).
    change (cacheWrites (?e1 :: ?e2 :: ?l)) with (cacheWrites l).
    rewrite cacheWrites_app, cacheWrites_failedRounds.
    change (cacheWrites (Request ?q :: ?l)) with (cacheWrites l).
    unfold succeed, storeYs. by rewrite Hmiss. }
  assert (Hs1 : s1 = handle (handleAnalyze w) t) by reflexivity.
  rewrite Hs1, (analyzed_miss w t Hact Hint i a Hok Hmiss).
  split; [reflexivity|]. do 3 (split; [reflexivity|]).
  exists (newPoint t w a). split; [reflexivity|].
  by apply newPoint_miss.
Qed.

Lemma C7_cleared_cache_takes_new_answer_witness :
  let s0 := handle clearCache initialState in
  let s1 := submit "I abort my child" "My life was in danger" (flaky answerB 1700000000000) s0 in
  yCache s0 !! "seismograph:i abort my child" = None ∧
  cacheWrites (handleAnalyze (flaky answerB 1700000000000)
                 (typed "I abort my child" "My life was in danger" s0)) = 1 ∧
  yCache s1 !! "seismograph:i abort my child" =
    Some (CacheEntry.make (Num 0.75) (Num 0.5) (Num 1) Undefined Undefined) ∧
  ∃ p, points s1 = [initialPoint; p] ∧
       MoralPoint.y p = Num 0.75 ∧
       MoralPoint.yMin p = Num 0.5 ∧
       MoralPoint.yMax p = Num 1.
Proof.
  destruct (C7_cleared_cache_takes_new_answer initialState
              "I abort my child" "My life was in danger"
              (flaky answerB 1700000000000) 1
              (fieldsOf (fullPayload (-1) 0.75 0.5 1 (-1) (-0.5))))
    as (Hcleared & Hwrites & Hcache & _ & _ & _ & p & Hpoints & Hy & Hmin & Hmax).
  - discriminate.
  - discriminate.
  - resolves_at_second.
  - cbv zeta. split; [exact Hcleared|]. split; [exact Hwrites|]. split.
    + rewrite Hcache. apply lookup_singleton_eq.
    + exists p. split; [exact Hpoints|]. split; [exact Hy|]. split; [exact Hmin | exact Hmax].
Defined.

(** C8.  Removing by identifier keeps exactly the points whose identifier
    differs, in their order and with all their fields, and changes
    nothing else of the state, the cache included. *)
Theorem C8_removePoint_frames_others_and_cache :
  ∀ (s : State) (id : string),
    let s' := handle (removePoint id) s in
    points s' = filter (λ p, MoralPoint.id p ≠ id) (points s) ∧
    filter (λ p, MoralPoint.id p ≠ id) (points s') =
      filter (λ p, MoralPoint.id p ≠ id) (points s) ∧
    sublist (points s') (points s) ∧
    (∀ p, p ∈ points s' ↔ p ∈ points s ∧ MoralPoint.id p ≠ id) ∧
    yCache s' = yCache s ∧
    s' = mkState (actionInput s) (intentInput s) (mode s) (points s') (yCache s)
                 (isSimulating s) (error s) (notification s).
Proof.
  intros s id s'. change (points s') with (filter (λ p, MoralPoint.id p ≠ id) (points s)).
  split; [reflexivity|]. split.
  { rewrite list_filter_filter. apply list_filter_iff. tauto. }
  split; [apply sublist_filter|]. split.
  { intros p. rewrite list_elem_of_filter. tauto. }
  split; reflexivity.
Qed.

Lemma flipNoise_involutive (p : MoralPoint.t) : flipNoise (flipNoise p) = p.
Proof. destruct p as [? ? ? ? ? ? ? ? ? ? ? show]. unfold flipNoise. cbn. by rewrite negb_involutive. Qed.

(** C9.  Toggling twice by the same identifier gives back the state.  One
    toggle keeps the number and the order of the points and every field
    of every point, except that [showNoise] is negated in the points that
    have the identifier; nothing else of the state changes. *)
Theorem C9_toggleNoise_involutive_flag_only :
  ∀ (s : State) (id : string),
    let s' := handle (toggleNoise id) s in
    handle (toggleNoise id) s' = s ∧
    s' = mkState (actionInput s) (intentInput s) (mode s) (points s') (yCache s)
                 (isSimulating s) (error s) (notification s) ∧
    length (points s') = length (points s) ∧
    ∀ (k : nat) (p : MoralPoint.t),
      points s !! k = Some p →
      ∃ p', points s' !! k = Some p' ∧
            MoralPoint.id p' = MoralPoint.id p ∧
            MoralPoint.action p' = MoralPoint.action p ∧
            MoralPoint.intent p' = MoralPoint.intent p ∧
            MoralPoint.x p' = MoralPoint.x p ∧
            MoralPoint.y p' = MoralPoint.y p ∧
            MoralPoint.yMin p' = MoralPoint.yMin p ∧
            MoralPoint.yMax p' = MoralPoint.yMax p ∧
            MoralPoint.xMin p' = MoralPoint.xMin p ∧
            MoralPoint.xMax p' = MoralPoint.xMax p ∧
            MoralPoint.label p' = MoralPoint.label p ∧
            MoralPoint.mode p' = MoralPoint.mode p ∧
            MoralPoint.showNoise p' =
              (if decide (MoralPoint.id p = id) then negb (MoralPoint.showNoise p)
               else MoralPoint.showNoise p) ∧
            (MoralPoint.id p ≠ id → p' = p).
Proof.
  intros s id s'.
  set (f := λ p, if decide (MoralPoint.id p = id) then flipNoise p else p).
  assert (Hpoints : points s' = map f (points s)) by reflexivity.
  split; [|split; [reflexivity|split]].
  - change (handle (toggleNoise id) s') with
      (mkState (actionInput s) (intentInput s) (mode s) (map f (map f (points s)))
               (yCache s) (isSimulating s) (error s) (notification s)).
    assert (Hback : map f (map f (points s)) = points s).
    { rewrite map_map. transitivity (map (λ p, p) (points s)); [|apply map_id].
      apply map_ext. intros p. unfold f. destruct (decide (MoralPoint.id p = id)) as [Hid|Hid].
      - change (MoralPoint.id (flipNoise p)) with (MoralPoint.id p).
        rewrite decide_True by done. apply flipNoise_involutive.
      - by rewrite decide_False. }
    rewrite Hback. apply state_eta.
  - rewrite Hpoints. apply length_map.
  - intros k p Hk. exists (f p). split.
    + rewrite Hpoints. change (map f (points s)) with (f <$> points s).
      by rewrite list_lookup_fmap, Hk.
    + unfold f. destruct (decide (MoralPoint.id p = id)); repeat split; done.
Qed.

Lemma C9_toggleNoise_involutive_flag_only_witness :
  handle (toggleNoise "1") (handle (toggleNoise "1") initialState) = initialState ∧
  ∃ p', points (handle (toggleNoise "1") initialState) !! 0 = Some p' ∧
        MoralPoint.x p' = Num 0.95 ∧
        MoralPoint.y p' = Num (-0.3) ∧
        MoralPoint.showNoise p' = false.
Proof.
  destruct (C9_toggleNoise_involutive_flag_only initialState "1")
    as (Htwice & _ & _ & Hone).
  split; [exact Htwice|].
  destruct (Hone 0 initialPoint) as (p' & Hp' & _ & _ & _ & Hx & Hy & _ & _ & _ & _ & _ & _ & Hshow & _).
  - reflexivity.
  - exists p'. split; [exact Hp'|]. split; [exact Hx|]. split; [exact Hy|]. exact Hshow.
Defined.

(** C10.  When the action text or the intent text is empty the handler
    does nothing at all: no setter is called, no request is sent, and the
    state is the one it was invoked on. *)
Theorem C10_empty_text_submits_nothing :
  ∀ (w : World) (s : State),
    actionInput s = "" ∨ intentInput s = "" →
    handleAnalyze w s = [] ∧ handle (handleAnalyze w) s = s.
Proof.
  intros w s Hempty.
  assert (Hnone : handleAnalyze w s = []).
  { unfold handleAnalyze. destruct Hempty as [-> | ->]; [reflexivity|].
    by rewrite orb_true_r. }
  split; [exact Hnone|]. unfold handle. by rewrite Hnone.
Qed.

Lemma C10_empty_text_submits_nothing_witness :
  handleAnalyze (steady answerA 1700000000000) (handle (typeAction "Steal a loaf of bread") initialState) = [] ∧
  handle (handleAnalyze (steady answerA 1700000000000))
    (handle (typeAction "Steal a loaf of bread") initialState)
  = handle (typeAction "Steal a loaf of bread") initialState.
Proof.
  apply (C10_empty_text_submits_nothing (steady answerA 1700000000000)
           (handle (typeAction "Steal a loaf of bread") initialState)).
  right. reflexivity.
Defined.

(** * More of the component *)

(** ** A trace, one state variable at a time *)

Lemma points_run (s : State) (l : list Effect) :
  points (run s l) = foldl applyPoints (points s) l.
Proof.
  revert s. induction l as [|e l IH]; intros s; [reflexivity|].
  change (run s (e :: l)) with (run (apply s e) l). rewrite IH.
  by destruct e.
Qed.

Lemma yCache_run (s : State) (l : list Effect) :
  yCache (run s l) = foldl applyCache (yCache s) l.
Proof.
  revert s. induction l as [|e l IH]; intros s; [reflexivity|].
  change (run s (e :: l)) with (run (apply s e) l). rewrite IH.
  by destruct e.
Qed.

Lemma isSimulating_run (s : State) (l : list Effect) :
  isSimulating (run s l) = foldl applyFlag (isSimulating s) l.
Proof.
  revert s. induction l as [|e l IH]; intros s; [reflexivity|].
  change (run s (e :: l)) with (run (apply s e) l). rewrite IH.
  by destruct e.
Qed.

Lemma applyCache_idle (c : gmap string CacheEntry.t) (l : list Effect) :
  cacheWrites l = 0 → foldl applyCache c l = c.
Proof.
  revert c. induction l as [|e l IH]; intros c Hnone; [reflexivity|].
  destruct e; try (apply IH; exact Hnone). discriminate Hnone.
Qed.

Lemma applyPoints_idle (ps : list MoralPoint.t) (l : list Effect) :
  pointWrites l = 0 → foldl applyPoints ps l = ps.
Proof.
  revert ps. induction l as [|e l IH]; intros ps Hnone; [reflexivity|].
  destruct e; try (apply IH; exact Hnone). discriminate Hnone.
Qed.

Lemma pointWrites_failedRounds (q : Prompt) (i k : nat) :
  pointWrites (failedRounds q i k) = 0.
Proof.
  revert i. induction k as [|k IH]; intros i; [reflexivity|]. apply IH.
Qed.

Lemma pointWrites_app (l1 l2 : list Effect) :
  pointWrites (l1 ++ l2) = pointWrites l1 + pointWrites l2.
Proof. unfold pointWrites. by rewrite omap_app, length_app. Qed.

Section Resolved.
Variables (w : World) (s : State) (i : nat) (a : ApiResult.t).
Hypothesis action_given : actionInput s ≠ "".
Hypothesis intent_given : intentInput s ≠ "".
Hypothesis resolved : succeedsAt w i a.

(** The setter calls of a resolved submission, applied to any points and
    to any cache: the updaters do not depend on what they are applied to
    beyond appending and inserting. *)
Lemma resolved_points (ps : list MoralPoint.t) :
  foldl applyPoints ps (handleAnalyze w s) = ps ++ [newPoint s w a].
Proof.
  rewrite (handleAnalyze_resolved w s action_given intent_given i a resolved).
  change (foldl applyPoints ps (?e1 :: ?e2 :: ?l)) with (foldl applyPoints ps l).
  rewrite foldl_app.
  rewrite (applyPoints_idle ps (failedRounds _ _ _)) by apply pointWrites_failedRounds.
  unfold succeed, storeYs. by destruct (yCache s !! actionKey s).
Qed.

Lemma resolved_cache_hit (c : gmap string CacheEntry.t) (cached : CacheEntry.t) :
  yCache s !! actionKey s = Some cached →
  cacheWrites (handleAnalyze w s) = 0 ∧ foldl applyCache c (handleAnalyze w s) = c.
Proof.
  intros Hhit.
  assert (Hnone : cacheWrites (handleAnalyze w s) = 0).
  { rewrite (handleAnalyze_resolved w s action_given intent_given i a resolved).
    change (cacheWrites (?e1 :: ?e2 :: ?l)) with (cacheWrites l).
    rewrite cacheWrites_app, cacheWrites_failedRounds.
    change (cacheWrites (Request ?q :: ?l)) with (cacheWrites l).
    unfold succeed, storeYs. by rewrite Hhit. }
  split; [exact Hnone|]. by apply applyCache_idle.
Qed.

Lemma resolved_cache_miss (c : gmap string CacheEntry.t) :
  yCache s !! actionKey s = None →
  foldl applyCache c (handleAnalyze w s) = <[actionKey s := cacheEntryOf a]> c.
Proof.
  intros Hmiss.
  rewrite (handleAnalyze_resolved w s action_given intent_given i a resolved).
  change (foldl applyCache c (?e1 :: ?e2 :: ?l)) with (foldl applyCache c l).
  rewrite foldl_app.
  rewrite (applyCache_idle c (failedRounds _ _ _)) by apply cacheWrites_failedRounds.
  unfold succeed, storeYs. by rewrite Hmiss.
Qed.

End Resolved.

(** The two ways a submission with both texts can end. *)
Lemma analyzed_cases (w : World) (s : State) :
  actionInput s ≠ "" → intentInput s ≠ "" →
  (∃ i a, succeedsAt w i a ∧
     handle (handleAnalyze w) s =
       mkState "" "" (mode s) (points s ++ [newPoint s w a])
               (match yCache s !! actionKey s with
                | Some _ => yCache s
                | None => <[actionKey s := cacheEntryOf a]> (yCache s)
                end)
               false None (notification s))
  ∨
  (allFail w ∧
     handle (handleAnalyze w) s =
       mkState (actionInput s) (intentInput s) (mode s) (points s) (yCache s)
               false (Some failureMessage) (notification s)).
Proof.
  intros Hact Hint. destruct (attempt_cases w) as [(i & a & Hok)|Hall].
  - left. exists i, a. split; [done|].
    destruct (yCache s !! actionKey s) as [cached|] eqn:Hkey.
    + by apply (analyzed_hit w s Hact Hint i a cached).
    + by apply (analyzed_miss w s Hact Hint i a).
  - right. split; [done|]. by apply analyzed_failed.
Qed.

(** ** How a submission ends *)

(** X1.  However the three attempts go, a submission with both texts
    ends with the in-flight flag lowered and the mode and the
    notification untouched.  When an attempt resolved, the error is
    cleared, both texts are emptied and the button is disabled again;
    when all three threw, the error is the failure message, both texts
    are kept and the button is enabled for another try. *)
Theorem X1_submission_settles :
  ∀ (w : World) (s : State),
    actionInput s ≠ "" → intentInput s ≠ "" →
    let s' := handle (handleAnalyze w) s in
    isSimulating s' = false ∧ mode s' = mode s ∧ notification s' = notification s ∧
    (((∃ i a, succeedsAt w i a) ∧
      error s' = None ∧ actionInput s' = "" ∧ intentInput s' = "" ∧
      analyzeDisabled s' = true)
     ∨
     (allFail w ∧
      error s' = Some failureMessage ∧
      actionInput s' = actionInput s ∧ intentInput s' = intentInput s ∧
      analyzeDisabled s' = false)).
Proof.
  intros w s Hact Hint s'. unfold s'.
  destruct (analyzed_cases w s Hact Hint) as [(i & a & Hok & ->)|(Hall & ->)].
  - repeat split. left. repeat split. by exists i, a.
  - repeat split. right. repeat split; [done|].
    unfold analyzeDisabled. cbn [actionInput intentInput isSimulating].
    by rewrite (is_empty_false _ Hact), (is_empty_false _ Hint).
Qed.

Lemma X1_submission_settles_witness :
  let s := typed "Steal a loaf of bread" "To feed my family" initialState in
  let s' := handle (handleAnalyze (offline 0)) s in
  isSimulating s' = false ∧ error s' = Some failureMessage ∧
  actionInput s' = "Steal a loaf of bread" ∧ analyzeDisabled s' = false.
Proof.
  destruct (X1_submission_settles (offline 0)
              (typed "Steal a loaf of bread" "To feed my family" initialState))
    as (Hflag & _ & _ & [((i & a & _ & Hcall & _) & _)|(_ & Herr & Hact & _ & Hbutton)]).
  - discriminate.
  - discriminate.
  - discriminate Hcall.
  - cbv zeta. split; [exact Hflag|]. split; [exact Herr|]. split; [exact Hact | exact Hbutton].
Defined.

Lemma failedRounds_members (q : Prompt) (i k : nat) (e : Effect) :
  e ∈ failedRounds q i k → e = Request q ∨ ∃ ms, e = Sleep ms.
Proof.
  revert i. induction k as [|k IH]; intros i; [by intros ?%elem_of_nil|].
  change (failedRounds q i (S k)) with
    (Request q :: Sleep (2 ^ Z.of_nat i * 1000) :: failedRounds q (S i) k).
  rewrite !elem_of_cons. intros [->|[->|Hin]]; eauto.
Qed.

(** The trace of a submission with both texts: the flag is raised first
    and lowered last, and not lowered in between. *)
Lemma handleAnalyze_shape (w : World) (s : State) :
  actionInput s ≠ "" → intentInput s ≠ "" →
  ∃ mid, handleAnalyze w s = SetIsSimulating true :: mid ++ [SetIsSimulating false] ∧
         ∀ e, e ∈ mid → e ≠ SetIsSimulating false.
Proof.
  intros Hact Hint. destruct (attempt_cases w) as [(i & a & Hok)|Hall].
  - exists (SetError None :: failedRounds (promptOf s) 0 i ++
            Request (promptOf s) :: storeYs s a ++
            [SetPoints (λ prev, prev ++ [newPoint s w a]);
             SetActionInput ""; SetIntentInput ""]).
    split.
    + rewrite (handleAnalyze_resolved w s Hact Hint i a Hok). unfold succeed.
      cbn [app]. do 2 f_equal. rewrite <- app_assoc. f_equal.
      cbn [app]. f_equal; by rewrite <- ?app_assoc.
    + intros e. rewrite elem_of_cons, elem_of_app, elem_of_cons, elem_of_app.
      intros [->|[Hin|[->|[Hin|Hin]]]]; try discriminate.
      * apply failedRounds_members in Hin as [->|[ms ->]]; discriminate.
      * unfold storeYs in Hin. destruct (yCache s !! actionKey s).
        -- by apply elem_of_nil in Hin.
        -- apply list_elem_of_singleton in Hin as ->. discriminate.
      * rewrite !elem_of_cons in Hin.
        destruct Hin as [->|[->|[->|Hin]]]; try discriminate.
        by apply elem_of_nil in Hin.
  - exists (SetError None :: failedRounds (promptOf s) 0 3 ++
            [SetError (Some failureMessage)]).
    split.
    + rewrite (handleAnalyze_exhausted w s Hact Hint Hall).
      reflexivity.
    + intros e. rewrite elem_of_cons, elem_of_app.
      intros [->|[Hin|Hin]]; try discriminate.
      * apply failedRounds_members in Hin as [->|[ms ->]]; discriminate.
      * apply list_elem_of_singleton in Hin as ->. discriminate.
Qed.

Lemma applyFlag_stays_raised (l : list Effect) :
  (∀ e, e ∈ l → e ≠ SetIsSimulating false) → foldl applyFlag true l = true.
Proof.
  induction l as [|e l IH]; intros Hquiet; [reflexivity|].
  assert (He : applyFlag true e = true).
  { destruct e as [| | | |[|]| | | | |]; try reflexivity.
    exfalso. apply (Hquiet (SetIsSimulating false)); [left|done]. }
  cbn [foldl]. rewrite He. apply IH. intros e' Hin. apply Hquiet. by right.
Qed.

(** X2.  From the first thing a submission does to the last, the
    in-flight flag is raised: at every point strictly inside its trace
    the button is disabled, so no second submission can start. *)
Theorem X2_button_disabled_in_flight :
  ∀ (w : World) (s : State) (before after : list Effect),
    actionInput s ≠ "" → intentInput s ≠ "" →
    handleAnalyze w s = before ++ after →
    before ≠ [] → after ≠ [] →
    isSimulating (run s before) = true ∧ analyzeDisabled (run s before) = true.
Proof.
  intros w s before after Hact Hint Hsplit Hbefore Hafter.
  destruct (handleAnalyze_shape w s Hact Hint) as (mid & Htrace & Hquiet).
  assert (Hflag : isSimulating (run s before) = true).
  { rewrite Htrace in Hsplit.
    destruct before as [|b0 before']; [done|].
    destruct after as [|x after' _] using rev_ind; [done|].
    injection Hsplit as <- Hrest.
    rewrite app_assoc in Hrest. apply app_inj_tail in Hrest as [-> _].
    rewrite isSimulating_run. cbn [foldl applyFlag].
    apply applyFlag_stays_raised. intros e Hin. apply Hquiet.
    apply elem_of_app. by left. }
  split; [exact Hflag|]. unfold analyzeDisabled. rewrite Hflag. apply orb_true_r.
Qed.

Lemma X2_button_disabled_in_flight_witness :
  let s := typed "Steal a loaf of bread" "To feed my family" initialState in
  let before := [SetIsSimulating true; SetError None; Request (promptOf s); Sleep 1000] in
  isSimulating (run s before) = true ∧ analyzeDisabled (run s before) = true.
Proof.
  apply (X2_button_disabled_in_flight (flaky answerA 0)
           (typed "Steal a loaf of bread" "To feed my family" initialState)
           [SetIsSimulating true; SetError None;
            Request (promptOf (typed "Steal a loaf of bread" "To feed my family" initialState));
            Sleep 1000]
           (Request (promptOf (typed "Steal a loaf of bread" "To feed my family" initialState))
            :: succeed (typed "Steal a loaf of bread" "To feed my family" initialState)
                 (flaky answerA 0)
                 (fieldsOf (fullPayload 0.5 (-0.25) (-0.5) 0 0.25 0.75)))).
  - discriminate.
  - discriminate.
  - reflexivity.
  - discriminate.
  - discriminate.
Defined.

(** ** What a submission never touches *)

(** X3.  A submission never changes or removes what the cache holds: a
    key other than the submitted one reads afterwards as before, and so
    does the submitted key when it already had an entry. *)
Theorem X3_cache_entries_never_overwritten :
  ∀ (w : World) (s : State) (k : string),
    k ≠ actionKey s ∨ is_Some (yCache s !! k) →
    yCache (handle (handleAnalyze w) s) !! k = yCache s !! k.
Proof.
  intros w s k Hk.
  destruct (analyzed_cache w s) as [->|(a & Hmiss & ->)]; [done|].
  rewrite lookup_insert_ne; [done|].
  intros <-. destruct Hk as [Hne|[e He]]; [done | congruence].
Qed.

Lemma X3_cache_entries_never_overwritten_witness :
  yCache (handle (handleAnalyze (steady answerB 0))
            (typed "i abort my child" "Out of spite" initialState))
    !! "seismograph:i abort my child"
  = Some initialCacheEntry.
Proof.
  rewrite (X3_cache_entries_never_overwritten (steady answerB 0)
             (typed "i abort my child" "Out of spite" initialState)
             "seismograph:i abort my child").
  - reflexivity.
  - right. by exists initialCacheEntry.
Defined.

(** The fields of the built point that do not depend on the answer. *)
Lemma newPoint_fixed (s : State) (w : World) (a : ApiResult.t) :
  MoralPoint.id (newPoint s w a) = toString (now w) ∧
  MoralPoint.action (newPoint s w a) = actionInput s ∧
  MoralPoint.intent (newPoint s w a) = intentInput s ∧
  MoralPoint.mode (newPoint s w a) = mode s ∧
  MoralPoint.showNoise (newPoint s w a) = false ∧
  MoralPoint.label (newPoint s w a) =
    "Scenario " +:+ toString (N.of_nat (length (points s) + 1)).
Proof. unfold newPoint. by destruct (finalYs s a) as [[? ?] ?]. Qed.

(** The store after any submission: as it was, or with the built point
    at its end. *)
Lemma analyzed_points_cases (w : World) (s : State) :
  points (handle (handleAnalyze w) s) = points s ∨
  ∃ a, points (handle (handleAnalyze w) s) = points s ++ [newPoint s w a].
Proof.
  destruct (Text.is_empty (actionInput s) || Text.is_empty (intentInput s)) eqn:Hempty.
  { left. unfold handle, handleAnalyze. by rewrite Hempty. }
  apply orb_false_elim in Hempty as [Hact Hint].
  assert (actionInput s ≠ "") as Hact' by (intros E; rewrite E in Hact; discriminate).
  assert (intentInput s ≠ "") as Hint' by (intros E; rewrite E in Hint; discriminate).
  destruct (analyzed_cases w s Hact' Hint') as [(i & a & Hok & ->)|(Hall & ->)].
  - right. by exists a.
  - by left.
Qed.

(** X4.  A submission appends at most one point and leaves the stored
    points as they are, in their order.  The appended point carries the
    texts and the mode of the submission, the clock reading as its
    identifier, and its noise flag unset. *)
Theorem X4_points_only_appended :
  ∀ (w : World) (s : State),
    ∃ new, points (handle (handleAnalyze w) s) = points s ++ new ∧
           length new ≤ 1 ∧
           ∀ p, p ∈ new →
             MoralPoint.id p = toString (now w) ∧
             MoralPoint.action p = actionInput s ∧
             MoralPoint.intent p = intentInput s ∧
             MoralPoint.mode p = mode s ∧
             MoralPoint.showNoise p = false.
Proof.
  intros w s. destruct (analyzed_points_cases w s) as [Hsame|(a & Hmore)].
  - exists []. split; [by rewrite app_nil_r|]. split; [cbn; lia|].
    by intros p ?%elem_of_nil.
  - exists [newPoint s w a]. split; [done|]. split; [cbn; lia|].
    intros p ->%list_elem_of_singleton.
    destruct (newPoint_fixed s w a) as (? & ? & ? & ? & ? & _). done.
Qed.

(** ** Handlers that meet a submission in flight *)

Lemma applyPoints_app (ps : list MoralPoint.t) (l1 l2 : list Effect) :
  foldl applyPoints ps (l1 ++ l2) = foldl applyPoints (foldl applyPoints ps l1) l2.
Proof. apply foldl_app. Qed.

Lemma applyCache_app (c : gmap string CacheEntry.t) (l1 l2 : list Effect) :
  foldl applyCache c (l1 ++ l2) = foldl applyCache (foldl applyCache c l1) l2.
Proof. apply foldl_app. Qed.

(** X5.  The cache is cleared while a submission is in flight whose key
    had an entry when it started.  The submission still builds its point
    from that entry, which is gone from the cache, and stores nothing:
    the cache is empty afterwards. *)
Theorem X5_clearCache_in_flight_stale_hit :
  ∀ (w : World) (s : State) (i : nat) (a : ApiResult.t) (cached : CacheEntry.t)
    (before after : list Effect),
    actionInput s ≠ "" → intentInput s ≠ "" →
    succeedsAt w i a →
    yCache s !! actionKey s = Some cached →
    handleAnalyze w s = before ++ after →
    let s' := during clearCache s before after in
    yCache s' = ∅ ∧
    ∃ p, points s' = points s ++ [p] ∧
         MoralPoint.y p = CacheEntry.y cached ∧
         MoralPoint.yMin p = CacheEntry.yMin cached ∧
         MoralPoint.yMax p = CacheEntry.yMax cached.
Proof.
  intros w s i a cached before after Hact Hint Hok Hhit Hsplit s'.
  destruct (resolved_cache_hit w s i a Hact Hint Hok ∅ cached Hhit) as [Hnone _].
  rewrite Hsplit, cacheWrites_app in Hnone. split.
  - unfold s', during. rewrite yCache_run.
    change (yCache (handle clearCache (run s before))) with (∅ : gmap string CacheEntry.t).
    apply applyCache_idle. lia.
  - exists (newPoint s w a). split; [|by apply newPoint_hit].
    unfold s', during. rewrite points_run.
    change (points (handle clearCache (run s before))) with (points (run s before)).
    rewrite points_run, <- applyPoints_app, <- Hsplit.
    by apply (resolved_points w s i a).
Qed.

Lemma X5_clearCache_in_flight_stale_hit_witness :
  let s := typed " I ABORT my child" "Out of fear" initialState in
  let s' := during clearCache s [SetIsSimulating true; SetError None; Request (promptOf s)]
              (succeed s (steady answerB 5) (fieldsOf (fullPayload (-1) 0.75 0.5 1 (-1) (-0.5)))) in
  yCache s' = ∅ ∧
  ∃ p, points s' = points s ++ [p] ∧
       MoralPoint.y p = Num (-0.3) ∧
       MoralPoint.yMin p = Num (-0.8) ∧
       MoralPoint.yMax p = Num 0.2.
Proof.
  apply (X5_clearCache_in_flight_stale_hit (steady answerB 5)
           (typed " I ABORT my child" "Out of fear" initialState)
           0 (fieldsOf (fullPayload (-1) 0.75 0.5 1 (-1) (-0.5))) initialCacheEntry).
  - discriminate.
  - discriminate.
  - resolves_at_once.
  - vm_compute. reflexivity.
  - reflexivity.
Defined.

(** X6.  The cache is cleared while a submission is in flight whose key
    had no entry, before the submission has written the cache.  The
    answer is then stored into the cleared cache: afterwards the cache
    holds the entry of this submission and nothing else. *)
Theorem X6_clearCache_in_flight_miss :
  ∀ (w : World) (s : State) (i : nat) (a : ApiResult.t) (before after : list Effect),
    actionInput s ≠ "" → intentInput s ≠ "" →
    succeedsAt w i a →
    yCache s !! actionKey s = None →
    handleAnalyze w s = before ++ after →
    cacheWrites before = 0 →
    let s' := during clearCache s before after in
    yCache s' = {[ actionKey s := cacheEntryOf a ]} ∧
    points s' = points s ++ [newPoint s w a] ∧
    MoralPoint.y (newPoint s w a) = ApiResult.y a.
Proof.
  intros w s i a before after Hact Hint Hok Hmiss Hsplit Hidle s'.
  split; [|split].
  - unfold s', during. rewrite yCache_run.
    change (yCache (handle clearCache (run s before))) with (∅ : gmap string CacheEntry.t).
    rewrite <- (applyCache_idle ∅ before Hidle) at 1.
    rewrite <- applyCache_app, <- Hsplit.
    by rewrite (resolved_cache_miss w s i a Hact Hint Hok ∅ Hmiss).
  - unfold s', during. rewrite points_run.
    change (points (handle clearCache (run s before))) with (points (run s before)).
    rewrite points_run, <- applyPoints_app, <- Hsplit.
    by apply (resolved_points w s i a).
  - by apply newPoint_miss.
Qed.

Lemma X6_clearCache_in_flight_miss_witness :
  let s := typed "Steal a loaf of bread" "To feed my family" initialState in
  let a := fieldsOf (fullPayload 0.5 (-0.25) (-0.5) 0 0.25 0.75) in
  let s' := during clearCache s [SetIsSimulating true; SetError None; Request (promptOf s)]
              (succeed s (steady answerA 5) a) in
  yCache s' = {[ "seismograph:steal a loaf of bread" := cacheEntryOf a ]} ∧
  points s' = points s ++ [newPoint s (steady answerA 5) a] ∧
  MoralPoint.y (newPoint s (steady answerA 5) a) = Num (-0.25).
Proof.
  apply (X6_clearCache_in_flight_miss (steady answerA 5)
           (typed "Steal a loaf of bread" "To feed my family" initialState)
           0 (fieldsOf (fullPayload 0.5 (-0.25) (-0.5) 0 0.25 0.75))).
  - discriminate.
  - discriminate.
  - resolves_at_once.
  - vm_compute. reflexivity.
  - reflexivity.
  - reflexivity.
Defined.

(** X7.  A point is removed while a submission is in flight, before the
    submission has appended its point.  The removal holds: afterwards the
    store is the filtered store with the new point at its end.  The label
    of the new point was counted on the render the submission started
    on, the removed point included. *)
Theorem X7_removePoint_in_flight :
  ∀ (w : World) (s : State) (i : nat) (a : ApiResult.t) (id : string)
    (before after : list Effect),
    actionInput s ≠ "" → intentInput s ≠ "" →
    succeedsAt w i a →
    handleAnalyze w s = before ++ after →
    pointWrites before = 0 →
    let s' := during (removePoint id) s before after in
    points s' = filter (λ p, MoralPoint.id p ≠ id) (points s) ++ [newPoint s w a] ∧
    MoralPoint.label (newPoint s w a) =
      "Scenario " +:+ toString (N.of_nat (length (points s) + 1)) ∧
    yCache s' = yCache (handle (handleAnalyze w) s).
Proof.
  intros w s i a id before after Hact Hint Hok Hsplit Hidle s'.
  assert (Hsame : points (run s before) = points s).
  { rewrite points_run. by apply applyPoints_idle. }
  split; [|split].
  - unfold s', during. rewrite points_run.
    change (points (handle (removePoint id) (run s before)))
      with (filter (λ p, MoralPoint.id p ≠ id) (points (run s before))).
    rewrite Hsame.
    set (kept := filter _ (points s)).
    rewrite <- (applyPoints_idle kept before Hidle) at 1.
    rewrite <- applyPoints_app, <- Hsplit.
    by apply (resolved_points w s i a).
  - unfold newPoint. by destruct (finalYs s a) as [[? ?] ?].
  - unfold s', during. rewrite yCache_run.
    change (yCache (handle (removePoint id) (run s before))) with (yCache (run s before)).
    rewrite yCache_run, <- applyCache_app, <- Hsplit.
    unfold handle. by rewrite yCache_run.
Qed.

Lemma X7_removePoint_in_flight_witness :
  let s := typed "Steal a loaf of bread" "To feed my family" initialState in
  let a := fieldsOf (fullPayload 0.5 (-0.25) (-0.5) 0 0.25 0.75) in
  let s' := during (removePoint "1") s
              [SetIsSimulating true; SetError None; Request (promptOf s)]
              (succeed s (steady answerA 5) a) in
  points s' = [newPoint s (steady answerA 5) a] ∧
  MoralPoint.label (newPoint s (steady answerA 5) a) = "Scenario 2".
Proof.
  destruct (X7_removePoint_in_flight (steady answerA 5)
              (typed "Steal a loaf of bread" "To feed my family" initialState)
              0 (fieldsOf (fullPayload 0.5 (-0.25) (-0.5) 0 0.25 0.75)) "1"
              [SetIsSimulating true; SetError None;
               Request (promptOf (typed "Steal a loaf of bread" "To feed my family" initialState))]
              (succeed (typed "Steal a loaf of bread" "To feed my family" initialState)
                 (steady answerA 5)
                 (fieldsOf (fullPayload 0.5 (-0.25) (-0.5) 0 0.25 0.75))))
    as (Hpoints & Hlabel & _).
  - discriminate.
  - discriminate.
  - resolves_at_once.
  - reflexivity.
  - reflexivity.
  - cbv zeta. split; [exact Hpoints | exact Hlabel].
Defined.

(** ** The key of the cache *)

Lemma append_cons (c : ascii) (t u : string) :
  String c t +:+ u = String c (t +:+ u).
Proof. reflexivity. Qed.

Lemma append_empty_r (t : string) : t +:+ "" = t.
Proof. induction t as [|c t IH]; [reflexivity|]. by rewrite append_cons, IH. Qed.

Lemma trimStart_blank (pad t : string) :
  blank pad = true → Text.trimStart (pad +:+ t) = Text.trimStart t.
Proof.
  induction pad as [|c pad IH]; [reflexivity|].
  cbn [blank]. intros [Hc Hpad]%andb_prop.
  rewrite append_cons. cbn [Text.trimStart]. rewrite Hc. by apply IH.
Qed.

Lemma trimEnd_blank (pad : string) : blank pad = true → Text.trimEnd pad = "".
Proof.
  induction pad as [|c pad IH]; [reflexivity|].
  cbn [blank]. intros [Hc Hpad]%andb_prop.
  cbn [Text.trimEnd]. by rewrite (IH Hpad), Hc.
Qed.

Lemma trimEnd_append_blank (t pad : string) :
  blank pad = true → Text.trimEnd (t +:+ pad) = Text.trimEnd t.
Proof.
  intros Hpad. induction t as [|c t IH]; [by apply trimEnd_blank|].
  rewrite append_cons. cbn [Text.trimEnd]. by rewrite IH.
Qed.

Lemma trimStart_blank_only (pad : string) : blank pad = true → Text.trimStart pad = "".
Proof.
  induction pad as [|c pad IH]; [reflexivity|].
  cbn [blank]. intros [Hc Hpad]%andb_prop.
  cbn [Text.trimStart]. rewrite Hc. by apply IH.
Qed.

Lemma trim_append_blank (t pad : string) :
  blank pad = true → Text.trim (t +:+ pad) = Text.trim t.
Proof.
  intros Hpad. unfold Text.trim. induction t as [|c t IH].
  - change ("" +:+ pad) with pad. by rewrite (trimStart_blank_only pad Hpad).
  - rewrite append_cons. cbn [Text.trimStart]. destruct (Text.is_white c); [exact IH|].
    rewrite <- append_cons. by apply trimEnd_append_blank.
Qed.

Lemma trim_padded (before t after : string) :
  blank before = true → blank after = true →
  Text.trim (before +:+ t +:+ after) = Text.trim t.
Proof.
  intros Hbefore Hafter. unfold Text.trim at 1.
  rewrite (trimStart_blank before _ Hbefore).
  by apply trim_append_blank.
Qed.

Lemma is_white_lower (c : ascii) : Text.is_white (Text.lower c) = Text.is_white c.
Proof. by destruct c as [[] [] [] [] [] [] [] []]. Qed.

Lemma trimStart_toLowerCase (t : string) :
  Text.trimStart (Text.toLowerCase t) = Text.toLowerCase (Text.trimStart t).
Proof.
  induction t as [|c t IH]; [reflexivity|].
  cbn [Text.toLowerCase Text.trimStart]. rewrite is_white_lower.
  by destruct (Text.is_white c).
Qed.

Lemma trimEnd_toLowerCase (t : string) :
  Text.trimEnd (Text.toLowerCase t) = Text.toLowerCase (Text.trimEnd t).
Proof.
  induction t as [|c t IH]; [reflexivity|].
  cbn [Text.toLowerCase Text.trimEnd]. rewrite IH, is_white_lower.
  destruct (Text.trimEnd t); [by destruct (Text.is_white c) | reflexivity].
Qed.

Lemma trim_toLowerCase (t : string) :
  Text.trim (Text.toLowerCase t) = Text.toLowerCase (Text.trim t).
Proof. unfold Text.trim. by rewrite trimStart_toLowerCase, trimEnd_toLowerCase. Qed.

(** X8.  On texts of ASCII characters the key does not see white space
    around the action text, nor the case of its letters: such a text,
    padded on both sides with TAB, LF, VT, FF, CR or spaces, whose
    letters differ from those of another such text in case only, has the
    key of that text.  The two hypotheses on the characters keep the
    statement to the texts on which [Text.trim] and [Text.toLowerCase]
    are the built-ins of the source. *)
Theorem X8_cacheKey_ignores_padding_and_case :
  ∀ (m : AnalysisMode) (before a after b : string),
    asciiText a = true → asciiText b = true →
    blank before = true → blank after = true →
    Text.toLowerCase a = Text.toLowerCase b →
    cacheKey m (before +:+ a +:+ after) = cacheKey m b.
Proof.
  intros m before a after b _ _ Hbefore Hafter Hcase. unfold cacheKey.
  rewrite (trim_padded before a after Hbefore Hafter).
  by rewrite <- !trim_toLowerCase, Hcase.
Qed.

Lemma X8_cacheKey_ignores_padding_and_case_witness :
  cacheKey seismograph ("  " +:+ "I ABORT my Child" +:+ " ") =
  cacheKey seismograph "i abort MY child".
Proof.
  apply (X8_cacheKey_ignores_padding_and_case seismograph "  " "I ABORT my Child" " "
           "i abort MY child"); reflexivity.
Defined.

(** X9.  Keys keep the modes apart: two keys are equal only when the
    modes are the same and the trimmed, lower-cased texts are the same.
    An entry stored under one mode is under no key of the other. *)
Theorem X9_cacheKey_separates_modes :
  ∀ (m m' : AnalysisMode) (a b : string),
    cacheKey m a = cacheKey m' b →
    m = m' ∧ Text.toLowerCase (Text.trim a) = Text.toLowerCase (Text.trim b).
Proof.
  intros m m' a b. unfold cacheKey.
  destruct m, m'; cbv [mode_name String.append]; intros H;
    (discriminate H || (injection H as H; by split)).
Qed.

Lemma X9_cacheKey_separates_modes_witness :
  seismograph = seismograph ∧
  Text.toLowerCase (Text.trim " Foo") = Text.toLowerCase (Text.trim "foo  ").
Proof.
  apply (X9_cacheKey_separates_modes seismograph seismograph " Foo" "foo  ").
  reflexivity.
Defined.

(** ** The point store *)

Lemma removed_state (id : string) (s : State) :
  handle (removePoint id) s =
    mkState (actionInput s) (intentInput s) (mode s)
            (filter (λ p, MoralPoint.id p ≠ id) (points s)) (yCache s)
            (isSimulating s) (error s) (notification s).
Proof. reflexivity. Qed.

Lemma toggled_state (id : string) (s : State) :
  handle (toggleNoise id) s =
    mkState (actionInput s) (intentInput s) (mode s)
            (map (λ p, if decide (MoralPoint.id p = id) then flipNoise p else p) (points s))
            (yCache s) (isSimulating s) (error s) (notification s).
Proof. reflexivity. Qed.

Lemma filter_absent (id : string) (ps : list MoralPoint.t) :
  id ∉ MoralPoint.id <$> ps → filter (λ p, MoralPoint.id p ≠ id) ps = ps.
Proof.
  induction ps as [|p ps IH]; [reflexivity|].
  rewrite fmap_cons, not_elem_of_cons. intros [Hne Hrest].
  rewrite filter_cons_True by done. by rewrite IH.
Qed.

Lemma toggle_absent (id : string) (ps : list MoralPoint.t) :
  id ∉ MoralPoint.id <$> ps →
  map (λ p, if decide (MoralPoint.id p = id) then flipNoise p else p) ps = ps.
Proof.
  induction ps as [|p ps IH]; [reflexivity|].
  rewrite fmap_cons, not_elem_of_cons. intros [Hne Hrest].
  cbn [map]. rewrite decide_False by done. by rewrite IH.
Qed.

Lemma filter_toggle (i j : string) (ps : list MoralPoint.t) :
  filter (λ p, MoralPoint.id p ≠ j)
    (map (λ p, if decide (MoralPoint.id p = i) then flipNoise p else p) ps) =
  map (λ p, if decide (MoralPoint.id p = i) then flipNoise p else p)
    (filter (λ p, MoralPoint.id p ≠ j) ps).
Proof.
  induction ps as [|p ps IH]; [reflexivity|].
  cbn [map].
  assert (Hid : MoralPoint.id (if decide (MoralPoint.id p = i) then flipNoise p else p)
                = MoralPoint.id p) by (by destruct (decide _)).
  destruct (decide (MoralPoint.id p = j)) as [Hj|Hj].
  - rewrite !filter_cons_False; [exact IH | by intros [] | rewrite Hid; by intros []].
  - rewrite !filter_cons_True; [| done | by rewrite Hid].
    cbn [map]. by rewrite IH.
Qed.

Lemma toggle_toggle (i j : string) (ps : list MoralPoint.t) :
  map (λ p, if decide (MoralPoint.id p = i) then flipNoise p else p)
    (map (λ p, if decide (MoralPoint.id p = j) then flipNoise p else p) ps) =
  map (λ p, if decide (MoralPoint.id p = j) then flipNoise p else p)
    (map (λ p, if decide (MoralPoint.id p = i) then flipNoise p else p) ps).
Proof.
  rewrite !map_map. apply map_ext. intros p.
  destruct (decide (MoralPoint.id p = j)) as [Hj|Hj],
           (decide (MoralPoint.id p = i)) as [Hi|Hi];
    change (MoralPoint.id (flipNoise p)) with (MoralPoint.id p);
    rewrite ?(decide_True _ _ Hi), ?(decide_True _ _ Hj),
            ?(decide_False _ _ Hi), ?(decide_False _ _ Hj); reflexivity.
Qed.

(** X10.  Removing or toggling by an identifier that no stored point has
    changes nothing. *)
Theorem X10_unknown_id_is_noop :
  ∀ (s : State) (id : string),
    id ∉ pointIds s →
    handle (removePoint id) s = s ∧ handle (toggleNoise id) s = s.
Proof.
  intros s id Habsent. rewrite removed_state, toggled_state.
  rewrite (filter_absent id _ Habsent), (toggle_absent id _ Habsent).
  split; apply state_eta.
Qed.

Lemma X10_unknown_id_is_noop_witness :
  handle (removePoint "1700000000000") initialState = initialState ∧
  handle (toggleNoise "1700000000000") initialState = initialState.
Proof.
  apply (X10_unknown_id_is_noop initialState "1700000000000").
  unfold pointIds. cbn. rewrite not_elem_of_cons. split; [discriminate | apply not_elem_of_nil].
Defined.

(** X11.  The operations on the point store commute: two removals, two
    toggles, and a removal with a toggle give the same state in either
    order, whatever the two identifiers are.  A removal done twice is
    done once, and no point with the removed identifier is left. *)
Theorem X11_store_operations_commute :
  ∀ (s : State) (i j : string),
    handle (removePoint i) (handle (removePoint j) s) =
      handle (removePoint j) (handle (removePoint i) s) ∧
    handle (toggleNoise i) (handle (toggleNoise j) s) =
      handle (toggleNoise j) (handle (toggleNoise i) s) ∧
    handle (removePoint j) (handle (toggleNoise i) s) =
      handle (toggleNoise i) (handle (removePoint j) s) ∧
    handle (removePoint i) (handle (removePoint i) s) = handle (removePoint i) s ∧
    i ∉ pointIds (handle (removePoint i) s).
Proof.
  intros s i j. rewrite !removed_state, !toggled_state.
  cbn [actionInput intentInput mode points yCache isSimulating error notification].
  split; [|split; [|split; [|split]]].
  - f_equal. rewrite !list_filter_filter. apply list_filter_iff. tauto.
  - f_equal. apply toggle_toggle.
  - f_equal. apply filter_toggle.
  - f_equal. rewrite list_filter_filter. apply list_filter_iff. tauto.
  - unfold pointIds. cbn [points]. rewrite list_elem_of_fmap.
    intros (p & Hid & Hin). apply list_elem_of_filter in Hin as [Hne _]. by apply Hne.
Qed.

Lemma delete_by_id (ps : list MoralPoint.t) (k : nat) (p : MoralPoint.t) :
  NoDup (MoralPoint.id <$> ps) → ps !! k = Some p →
  filter (λ q, MoralPoint.id q ≠ MoralPoint.id p) ps = delete k ps.
Proof.
  revert k. induction ps as [|q ps IH]; intros k Hnodup Hk; [done|].
  rewrite fmap_cons in Hnodup. apply NoDup_cons in Hnodup as [Hfresh Hnodup].
  destruct k as [|k].
  - injection Hk as ->. rewrite filter_cons_False by (by intros []).
    by apply filter_absent.
  - cbn in Hk. rewrite filter_cons_True.
    + cbn [delete list_delete]. f_equal. by apply IH.
    + intros Heq. apply Hfresh. rewrite Heq.
      apply list_elem_of_fmap. exists p. split; [done|].
      by apply list_elem_of_lookup_2 with k.
Qed.

(** X12.  When the stored points have distinct identifiers, removing by
    the identifier of the point at a position deletes the point at that
    position and no other, and toggling by it negates the flag of that
    point and of no other. *)
Theorem X12_distinct_ids_single_point :
  ∀ (s : State) (k : nat) (p : MoralPoint.t),
    NoDup (pointIds s) →
    points s !! k = Some p →
    points (handle (removePoint (MoralPoint.id p)) s) = delete k (points s) ∧
    points (handle (toggleNoise (MoralPoint.id p)) s) = <[k := flipNoise p]> (points s).
Proof.
  intros s k p Hnodup Hk. rewrite removed_state, toggled_state. cbn [points].
  split; [by apply delete_by_id|].
  unfold pointIds in Hnodup. revert k Hk Hnodup.
  induction (points s) as [|q ps IH]; intros k Hk Hnodup; [done|].
  rewrite fmap_cons in Hnodup. apply NoDup_cons in Hnodup as [Hfresh Hnodup].
  destruct k as [|k].
  - injection Hk as ->. cbn [map]. rewrite decide_True by done.
    cbn. f_equal. by apply toggle_absent.
  - cbn in Hk. cbn [map]. rewrite decide_False.
    + cbn. f_equal. by apply IH.
    + intros Heq. apply Hfresh. rewrite Heq.
      apply list_elem_of_fmap. exists p. split; [done|].
      by apply list_elem_of_lookup_2 with k.
Qed.

Lemma X12_distinct_ids_single_point_witness :
  points (handle (removePoint "1") initialState) = [] ∧
  points (handle (toggleNoise "1") initialState) = [flipNoise initialPoint].
Proof.
  apply (X12_distinct_ids_single_point initialState 0 initialPoint).
  - unfold pointIds. cbn. apply NoDup_singleton.
  - reflexivity.
Defined.

Lemma toString_inj (n m : N) : toString n = toString m → n = m.
Proof.
  unfold toString. intros Heq.
  assert (Huint : N.to_uint n = N.to_uint m).
  { apply (f_equal NilEmpty.uint_of_string) in Heq.
    rewrite !NilEmpty.usu in Heq. by injection Heq. }
  apply (f_equal N.of_uint) in Huint.
  by rewrite !DecimalN.Unsigned.of_to in Huint.
Qed.

(** X13.  The identifiers stay distinct as long as the clock moves: when
    the stored identifiers are the decimal texts of distinct clock
    readings and a submission reads a clock value that is not among
    them, the identifiers after the submission are distinct again. *)
Theorem X13_fresh_clock_keeps_ids_distinct :
  ∀ (w : World) (s : State) (clocks : list N),
    pointIds s = toString <$> clocks →
    NoDup clocks →
    now w ∉ clocks →
    NoDup (pointIds (handle (handleAnalyze w) s)).
Proof.
  intros w s clocks Hids Hnodup Hfresh.
  unfold pointIds in *.
  destruct (analyzed_points_cases w s) as [->|(a & ->)].
  - rewrite Hids. apply NoDup_fmap; [exact toString_inj | done].
  - rewrite fmap_app, Hids. cbn [fmap list_fmap].
    destruct (newPoint_fixed s w a) as (-> & _).
    change ([toString (now w)]) with (toString <$> [now w]).
    rewrite <- fmap_app. apply NoDup_fmap; [exact toString_inj|].
    apply NoDup_app. split; [done|]. split; [|apply NoDup_singleton].
    intros n Hn ->%list_elem_of_singleton. by apply Hfresh.
Qed.

Lemma X13_fresh_clock_keeps_ids_distinct_witness :
  NoDup (pointIds (handle (handleAnalyze (steady answerA 1700000000000))
                     (typed "Steal a loaf of bread" "To feed my family" initialState))).
Proof.
  apply (X13_fresh_clock_keeps_ids_distinct (steady answerA 1700000000000)
           (typed "Steal a loaf of bread" "To feed my family" initialState) [1%N]).
  - reflexivity.
  - apply NoDup_singleton.
  - rewrite list_elem_of_singleton. discriminate.
Defined.

(** ** The cache and the noise layer *)

(** X14.  Missing y bounds stick.  When the first answer for a key comes
    without [y_min] or without [y_max], the entry stored for the key has
    that bound undefined, and the point of a later submission with the
    same key takes it from there: no ellipse is drawn for that point,
    with its flag set or not, whatever bounds the later answer had. *)
Theorem X14_missing_y_bounds_stick :
  ∀ (s : State) (act1 int1 act2 int2 : string) (w1 w2 : World)
    (i1 i2 : nat) (a1 a2 : ApiResult.t),
    act1 ≠ "" → int1 ≠ "" → act2 ≠ "" → int2 ≠ "" →
    cacheKey (mode s) act1 = cacheKey (mode s) act2 →
    succeedsAt w1 i1 a1 → succeedsAt w2 i2 a2 →
    yCache s !! cacheKey (mode s) act1 = None →
    ApiResult.yMin a1 = Undefined ∨ ApiResult.yMax a1 = Undefined →
    ∃ p1 p2,
      points (submit act2 int2 w2 (submit act1 int1 w1 s)) = points s ++ [p1; p2] ∧
      MoralPoint.xMin p2 = ApiResult.xMin a2 ∧
      MoralPoint.xMax p2 = ApiResult.xMax a2 ∧
      noiseDrawn p2 = false ∧
      noiseDrawn (flipNoise p2) = false.
Proof.
  intros s act1 int1 act2 int2 w1 w2 i1 i2 a1 a2 H1 H1' H2 H2' Hkey Hok1 Hok2 Hmiss Hbound.
  unfold submit. fold (typed act1 int1 s). set (t1 := typed act1 int1 s).
  assert (Hlook : yCache t1 !! actionKey t1 = None) by exact Hmiss.
  rewrite (analyzed_miss w1 t1 H1 H1' i1 a1 Hok1 Hlook).
  set (s1 := mkState _ _ _ _ _ _ _ _).
  fold (typed act2 int2 s1). set (t2 := typed act2 int2 s1).
  assert (Hlook2 : yCache t2 !! actionKey t2 = Some (cacheEntryOf a1)).
  { change (<[cacheKey (mode s) act1 := cacheEntryOf a1]> (yCache s)
              !! cacheKey (mode s) act2 = Some (cacheEntryOf a1)).
    rewrite <- Hkey. apply lookup_insert_eq. }
  exists (newPoint t1 w1 a1), (newPoint t2 w2 a2).
  rewrite (analyzed_points w2 t2 i2 a2 H2 H2' Hok2).
  destruct (newPoint_hit t2 w2 a2 _ Hlook2) as (_ & Hmin & Hmax).
  destruct (newPoint_x t2 w2 a2) as (_ & Hxmin & Hxmax).
  destruct (newPoint_fixed t2 w2 a2) as (_ & _ & _ & _ & Hflag & _).
  split; [|split; [done|split; [done|split]]].
  - change (points t2) with (points s ++ [newPoint t1 w1 a1]).
    by rewrite <- app_assoc.
  - unfold noiseDrawn. by rewrite Hflag.
  - unfold noiseDrawn, flipNoise.
    cbn [MoralPoint.showNoise MoralPoint.xMin MoralPoint.xMax MoralPoint.yMin MoralPoint.yMax].
    rewrite Hmin, Hmax. cbn [cacheEntryOf CacheEntry.yMin CacheEntry.yMax].
    destruct Hbound as [-> | ->]; cbn [isDefined]; by rewrite ?andb_false_r.
Qed.

Lemma X14_missing_y_bounds_stick_witness :
  ∃ p1 p2,
    points (submit "steal bread" "Greed" (steady answerA 20)
              (submit "Steal bread" "Hunger" (steady answerEmpty 10) initialState))
      = points initialState ++ [p1; p2] ∧
    MoralPoint.xMin p2 = Num 0.25 ∧
    MoralPoint.xMax p2 = Num 0.75 ∧
    noiseDrawn p2 = false ∧
    noiseDrawn (flipNoise p2) = false.
Proof.
  apply (X14_missing_y_bounds_stick initialState "Steal bread" "Hunger" "steal bread" "Greed"
           (steady answerEmpty 10) (steady answerA 20) 0 0
           (fieldsOf (Obj [])) (fieldsOf (fullPayload 0.5 (-0.25) (-0.5) 0 0.25 0.75))).
  - discriminate.
  - discriminate.
  - discriminate.
  - discriminate.
  - vm_compute. reflexivity.
  - resolves_at_once.
  - resolves_at_once.
  - vm_compute. reflexivity.
  - left. reflexivity.
Defined.

(** X15.  Clearing the points does not clear the cache.  After it, a
    submission whose key had an entry builds a point with the y values of
    that entry; the point is alone in the store and labelled as the
    first scenario, and the cache is as it was. *)
Theorem X15_clearAllPoints_keeps_cache :
  ∀ (s : State) (act int : string) (w : World) (i : nat) (a : ApiResult.t)
    (cached : CacheEntry.t),
    act ≠ "" → int ≠ "" →
    succeedsAt w i a →
    yCache s !! cacheKey (mode s) act = Some cached →
    let s' := submit act int w (handle clearAllPoints s) in
    yCache s' = yCache s ∧
    ∃ p, points s' = [p] ∧
         MoralPoint.label p = "Scenario 1" ∧
         MoralPoint.y p = CacheEntry.y cached ∧
         MoralPoint.yMin p = CacheEntry.yMin cached ∧
         MoralPoint.yMax p = CacheEntry.yMax cached.
Proof.
  intros s act int w i a cached Hact Hint Hok Hhit s'.
  set (t := typed act int (handle clearAllPoints s)).
  assert (Hlook : yCache t !! actionKey t = Some cached) by exact Hhit.
  assert (Hs' : s' = handle (handleAnalyze w) t) by reflexivity.
  rewrite Hs', (analyzed_hit w t Hact Hint i a cached Hok Hlook).
  split; [reflexivity|]. exists (newPoint t w a). split; [reflexivity|].
  split; [|by apply newPoint_hit].
  by destruct (newPoint_fixed t w a) as (_ & _ & _ & _ & _ & ->).
Qed.

Lemma X15_clearAllPoints_keeps_cache_witness :
  let s' := submit "I abort my child" "Out of spite" (steady answerB 30)
              (handle clearAllPoints initialState) in
  yCache s' = yCache initialState ∧
  ∃ p, points s' = [p] ∧
       MoralPoint.label p = "Scenario 1" ∧
       MoralPoint.y p = Num (-0.3) ∧
       MoralPoint.yMin p = Num (-0.8) ∧
       MoralPoint.yMax p = Num 0.2.
Proof.
  apply (X15_clearAllPoints_keeps_cache initialState "I abort my child" "Out of spite"
           (steady answerB 30) 0 (fieldsOf (fullPayload (-1) 0.75 0.5 1 (-1) (-0.5)))
           initialCacheEntry).
  - discriminate.
  - discriminate.
  - resolves_at_once.
  - vm_compute. reflexivity.
Defined.

(** X16.  Labels number the points by the size of the store, so a label
    can repeat.  A submission is followed by the removal of one earlier
    point and by another submission: the two new points are both in the
    store and carry the same label. *)
Theorem X16_label_repeats_after_removal :
  ∀ (s : State) (act1 int1 act2 int2 id : string) (w1 w2 : World)
    (i1 i2 : nat) (a1 a2 : ApiResult.t),
    act1 ≠ "" → int1 ≠ "" → act2 ≠ "" → int2 ≠ "" →
    succeedsAt w1 i1 a1 → succeedsAt w2 i2 a2 →
    length (filter (λ p, MoralPoint.id p ≠ id) (points s)) + 1 = length (points s) →
    toString (now w1) ≠ id →
    ∃ p1 p2,
      points (submit act2 int2 w2 (handle (removePoint id) (submit act1 int1 w1 s))) =
        filter (λ p, MoralPoint.id p ≠ id) (points s) ++ [p1; p2] ∧
      MoralPoint.label p1 = MoralPoint.label p2.
Proof.
  intros s act1 int1 act2 int2 id w1 w2 i1 i2 a1 a2 H1 H1' H2 H2' Hok1 Hok2 Hone Hid.
  unfold submit. fold (typed act1 int1 s). set (t1 := typed act1 int1 s).
  set (s1 := handle (handleAnalyze w1) t1).
  assert (Hs1 : points s1 = points s ++ [newPoint t1 w1 a1])
    by apply (analyzed_points w1 t1 i1 a1 H1 H1' Hok1).
  set (r := handle (removePoint id) s1).
  fold (typed act2 int2 r). set (t2 := typed act2 int2 r).
  destruct (newPoint_fixed t1 w1 a1) as (Hid1 & _ & _ & _ & _ & Hlabel1).
  assert (Hr : points t2 = filter (λ p, MoralPoint.id p ≠ id) (points s) ++ [newPoint t1 w1 a1]).
  { change (points t2) with (filter (λ p, MoralPoint.id p ≠ id) (points s1)).
    rewrite Hs1, filter_app. f_equal.
    rewrite filter_cons_True; [done|]. by rewrite Hid1. }
  exists (newPoint t1 w1 a1), (newPoint t2 w2 a2). split.
  - rewrite (analyzed_points w2 t2 i2 a2 H2 H2' Hok2), Hr. by rewrite <- app_assoc.
  - destruct (newPoint_fixed t2 w2 a2) as (_ & _ & _ & _ & _ & Hlabel2).
    rewrite Hlabel1, Hlabel2, Hr, length_app. cbn [length].
    change (points t1) with (points s). by rewrite Hone.
Qed.

Lemma X16_label_repeats_after_removal_witness :
  ∃ p1 p2,
    points (submit "Tell a lie" "Kindness" (steady answerB 20)
              (handle (removePoint "1")
                 (submit "Steal bread" "Hunger" (steady answerA 10) initialState))) =
      filter (λ p, MoralPoint.id p ≠ "1") (points initialState) ++ [p1; p2] ∧
    MoralPoint.label p1 = MoralPoint.label p2.
Proof.
  apply (X16_label_repeats_after_removal initialState
           "Steal bread" "Hunger" "Tell a lie" "Kindness" "1"
           (steady answerA 10) (steady answerB 20) 0 0
           (fieldsOf (fullPayload 0.5 (-0.25) (-0.5) 0 0.25 0.75))
           (fieldsOf (fullPayload (-1) 0.75 0.5 1 (-1) (-0.5)))).
  - discriminate.
  - discriminate.
  - discriminate.
  - discriminate.
  - resolves_at_once.
  - resolves_at_once.
  - reflexivity.
  - discriminate.
Defined.

(** ** What makes the call throw *)

Lemma resultTextOf_throws (data : value) (e : Error) :
  resultTextOf data = Throw e ↔ e = TypeError ∧ (data = Null ∨ data = Undefined).
Proof.
  unfold resultTextOf. destruct data; cbn [get orThrow bind]; split;
    try discriminate; try (intros [_ [?|?]]; discriminate).
  - intros [= <-]. split; [done | by right].
  - by intros [-> _].
  - intros [= <-]. split; [done | by left].
  - by intros [-> _].
Qed.

(** X17.  Each error of [callGeminiAPI] has one cause, and the causes are
    tried in this order: the transport, the status, the body, the result
    text, its parsing, and a payload or body that is [null].  A status
    that is no success throws with that status whatever the body holds;
    a body of any shape other than [null] that has no result text throws
    "No analysis returned", never a type error. *)
Theorem X17_error_causes :
  ∀ (rep : option Response) (e : Error),
    callGeminiAPI rep = Throw e ↔
    match e with
    | FetchFailed => rep = None
    | ApiError st =>
        ∃ resp, rep = Some resp ∧ ok resp = false ∧ status resp = st
    | BodyUnreadable =>
        ∃ resp, rep = Some resp ∧ ok resp = true ∧ json resp = None
    | NoAnalysisReturned =>
        ∃ resp data text,
          rep = Some resp ∧ ok resp = true ∧ json resp = Some data ∧
          resultTextOf data = Return text ∧ truthy text = false
    | SyntaxError =>
        ∃ resp data text,
          rep = Some resp ∧ ok resp = true ∧ json resp = Some data ∧
          resultTextOf data = Return text ∧ truthy text = true ∧
          parsedText resp = None
    | TypeError =>
        ∃ resp,
          rep = Some resp ∧ ok resp = true ∧
          ((json resp = Some Null ∨ json resp = Some Undefined) ∨
           ∃ data text,
             json resp = Some data ∧ resultTextOf data = Return text ∧
             truthy text = true ∧
             (parsedText resp = Some Null ∨ parsedText resp = Some Undefined))
    end.
Proof.
  intros rep e. split.
  - unfold callGeminiAPI. destruct rep as [resp|]; cbn [orThrow bind].
    2: { by intros [= <-]. }
    destruct (ok resp) eqn:Hok; cbn [negb].
    2: { intros [= <-]. by exists resp. }
    destruct (json resp) as [data|] eqn:Hjson; cbn [orThrow bind].
    2: { intros [= <-]. by exists resp. }
    destruct (resultTextOf data) as [text|e'] eqn:Htext; cbn [bind].
    2: { intros [= <-]. apply resultTextOf_throws in Htext as [-> Hdata].
         exists resp. split; [done|]. split; [done|]. left.
         destruct Hdata as [-> | ->]; [by left | by right]. }
    destruct (truthy text) eqn:Htruthy; cbn [negb].
    2: { intros [= <-]. by exists resp, data, text. }
    destruct (parsedText resp) as [parsed|] eqn:Hparsed; cbn [orThrow bind].
    2: { intros [= <-]. by exists resp, data, text. }
    destruct parsed; cbn [get orThrow bind]; try discriminate.
    + intros [= <-]. exists resp. split; [done|]. split; [done|]. right.
      exists data, text. repeat split; try done. by right.
    + intros [= <-]. exists resp. split; [done|]. split; [done|]. right.
      exists data, text. repeat split; try done. by left.
  - unfold callGeminiAPI. destruct e.
    + by intros ->.
    + intros (resp & -> & Hok & <-). cbn [orThrow bind]. by rewrite Hok.
    + intros (resp & -> & Hok & Hjson). cbn [orThrow bind]. by rewrite Hok, Hjson.
    + intros (resp & data & text & -> & Hok & Hjson & Htext & Htruthy).
      cbn [orThrow bind]. rewrite Hok, Hjson. cbn [negb orThrow bind].
      rewrite Htext. cbn [bind]. by rewrite Htruthy.
    + intros (resp & data & text & -> & Hok & Hjson & Htext & Htruthy & Hparsed).
      cbn [orThrow bind]. rewrite Hok, Hjson. cbn [negb orThrow bind].
      rewrite Htext. cbn [bind]. by rewrite Htruthy, Hparsed.
    + intros (resp & -> & Hok & [Hbody|(data & text & Hjson & Htext & Htruthy & Hparsed)]);
        cbn [orThrow bind]; rewrite Hok; cbn [negb].
      * destruct Hbody as [-> | ->]; reflexivity.
      * rewrite Hjson. cbn [orThrow bind]. rewrite Htext. cbn [bind]. rewrite Htruthy.
        cbn [negb]. destruct Hparsed as [-> | ->]; reflexivity.
Qed.

(** ** The colours of the chart *)

(** The two tests of [getPointColor] on one number: both fail on NaN, and
    exactly one holds on any other number. *)
Lemma sign_tests (v : float) :
  if PrimFloat.is_nan v
  then PrimFloat.leb 0 v = false ∧ PrimFloat.ltb v 0 = false
  else PrimFloat.leb 0 v = negb (PrimFloat.ltb v 0).
Proof.
  unfold PrimFloat.is_nan. rewrite FloatAxioms.eqb_spec, leb_spec, ltb_spec.
  change (Prim2SF 0) with (S754_zero false).
  destruct (Prim2SF v) as [sg|sg| |sg m e]; cbn.
  - by destruct sg.
  - by destruct sg.
  - by split.
  - unfold SFeqb, SFleb, SFltb. cbn. rewrite Z.compare_refl, Pos.compare_refl.
    by destruct sg.
Qed.

(** X18.  The colour of a point.  For two numbers neither of which is
    NaN, the colour is one of the four of the point's mode, chosen by the
    two tests [x < 0] and [y < 0] alone; in seismograph mode the second
    block of tests is never reached.  The grey [#64748b] is returned
    exactly when a coordinate is NaN. *)
Theorem X18_getPointColor_by_signs :
  ∀ (x y : float) (m : AnalysisMode),
    (getPointColor x y m = "#64748b" ↔
       PrimFloat.is_nan x = true ∨ PrimFloat.is_nan y = true) ∧
    (PrimFloat.is_nan x = false → PrimFloat.is_nan y = false →
     getPointColor x y m =
       match m, PrimFloat.ltb x 0, PrimFloat.ltb y 0 with
       | seismograph, false, false => "#34d399"
       | seismograph, true, false => "#818cf8"
       | seismograph, true, true => "#f87171"
       | seismograph, false, true => "#fbbf24"
       | philosopher, false, false => "#22c55e"
       | philosopher, true, false => "#a855f7"
       | philosopher, true, true => "#ef4444"
       | philosopher, false, true => "#f59e0b"
       end).
Proof.
  intros x y m. pose proof (sign_tests x) as Hx. pose proof (sign_tests y) as Hy.
  unfold getPointColor.
  destruct (PrimFloat.is_nan x), (PrimFloat.is_nan y).
  - destruct Hx as [-> ->], Hy as [-> ->]. destruct m; split; (tauto || discriminate).
  - destruct Hx as [-> ->]. rewrite Hy.
    destruct m, (PrimFloat.ltb y 0); split; (tauto || discriminate).
  - destruct Hy as [-> ->]. rewrite Hx.
    destruct m, (PrimFloat.ltb x 0); split; (tauto || discriminate).
  - rewrite Hx, Hy.
    destruct m, (PrimFloat.ltb x 0), (PrimFloat.ltb y 0); cbn; split;
      try reflexivity; split; try discriminate; intros [?|?]; discriminate.
Qed.

(** X19.  The legend matches the points of the current mode only.  For
    two numbers neither of which is NaN, the colour of a point of a mode
    is one of the four swatches the legend shows in that mode, and none
    of those it shows in the other mode. *)
Theorem X19_legend_matches_mode :
  ∀ (x y : float) (m m' : AnalysisMode),
    PrimFloat.is_nan x = false → PrimFloat.is_nan y = false →
    (getPointColor x y m ∈ (legend m').*1 ↔ m = m').
Proof.
  intros x y m m' Hx Hy.
  pose proof (sign_tests x) as Tx. pose proof (sign_tests y) as Ty.
  rewrite Hx in Tx. rewrite Hy in Ty. unfold getPointColor. rewrite Tx, Ty.
  destruct m, m', (PrimFloat.ltb x 0), (PrimFloat.ltb y 0);
    cbn [negb andb legend fmap list_fmap fst]; rewrite !elem_of_cons, elem_of_nil;
    split; try done; try (intros _; tauto);
    intros [?|[?|[?|[?|[]]]]]; discriminate.
Qed.

Lemma X19_legend_matches_mode_witness :
  getPointColor 0.95 (-0.3) seismograph ∈ (legend seismograph).*1 ↔ seismograph = seismograph.
Proof.
  apply (X19_legend_matches_mode 0.95 (-0.3) seismograph seismograph); reflexivity.
Defined.

Lemma X18_getPointColor_by_signs_witness :
  getPointColor 0.95 (-0.3) seismograph = "#fbbf24" ∧
  getPointColor (-0) 0.5 philosopher = "#22c55e".
Proof.
  split.
  - apply (proj2 (X18_getPointColor_by_signs 0.95 (-0.3) seismograph)); reflexivity.
  - apply (proj2 (X18_getPointColor_by_signs (-0) 0.5 philosopher)); reflexivity.
Defined.

(** ** The waits of a submission *)

(** X20.  A submission that resolves at its attempt [i] (counted from
    0) has waited 1000 ms times 2^j after each earlier attempt [j] and
    not after the one that resolved: [2^i - 1] seconds in all, three
    seconds at most. *)
Theorem X20_waits_before_resolving :
  ∀ (w : World) (s : State) (i : nat) (a : ApiResult.t),
    actionInput s ≠ "" → intentInput s ≠ "" →
    succeedsAt w i a →
    sleeps (handleAnalyze w s) = map (λ j, 2 ^ Z.of_nat j * 1000)%Z (seq 0 i) ∧
    foldr Z.add 0%Z (sleeps (handleAnalyze w s)) = ((2 ^ Z.of_nat i - 1) * 1000)%Z ∧
    (foldr Z.add 0%Z (sleeps (handleAnalyze w s)) ≤ 3000)%Z.
Proof.
  intros w s i a Hact Hint Hok.
  rewrite (sleeps_resolved w s i a Hact Hint Hok).
  destruct Hok as (Hi & _). split; [reflexivity|].
  destruct i as [|[|[|i]]]; [| | |lia]; cbn; split; lia.
Qed.

Lemma X20_waits_before_resolving_witness :
  sleeps (handleAnalyze (flaky answerA 0)
            (typed "Steal a loaf of bread" "To feed my family" initialState)) = [1000%Z] ∧
  foldr Z.add 0%Z (sleeps (handleAnalyze (flaky answerA 0)
            (typed "Steal a loaf of bread" "To feed my family" initialState))) = 1000%Z ∧
  (foldr Z.add 0%Z (sleeps (handleAnalyze (flaky answerA 0)
            (typed "Steal a loaf of bread" "To feed my family" initialState))) ≤ 3000)%Z.
Proof.
  apply (X20_waits_before_resolving (flaky answerA 0)
           (typed "Steal a loaf of bread" "To feed my family" initialState)
           1 (fieldsOf (fullPayload 0.5 (-0.25) (-0.5) 0 0.25 0.75))).
  - discriminate.
  - discriminate.
  - resolves_at_second.
Defined.

(** ** Typing while a submission is in flight *)

Lemma actionInput_run (s : State) (l : list Effect) :
  actionInput (run s l) = foldl applyAction (actionInput s) l.
Proof.
  revert s. induction l as [|e l IH]; intros s; [reflexivity|].
  change (run s (e :: l)) with (run (apply s e) l). rewrite IH.
  by destruct e.
Qed.

Lemma applyAction_idle (text : string) (l : list Effect) :
  actionWrites l = 0 → foldl applyAction text l = text.
Proof.
  revert text. induction l as [|e l IH]; intros text Hnone; [reflexivity|].
  destruct e; try (apply IH; exact Hnone). discriminate Hnone.
Qed.

Lemma actionWrites_failedRounds (q : Prompt) (i k : nat) :
  actionWrites (failedRounds q i k) = 0.
Proof.
  revert i. induction k as [|k IH]; intros i; [reflexivity|]. apply IH.
Qed.

Lemma actionWrites_app (l1 l2 : list Effect) :
  actionWrites (l1 ++ l2) = actionWrites l1 + actionWrites l2.
Proof. unfold actionWrites. by rewrite omap_app, length_app. Qed.

(** X21.  The action text is retyped while a submission is in flight.
    The requests and the point keep the text the submission started
    with.  When the submission resolves, the field is emptied and the
    retyped text is lost; when all attempts fail, the retyped text
    stays. *)
Theorem X21_typing_in_flight :
  ∀ (w : World) (s : State) (text : string) (before after : list Effect),
    actionInput s ≠ "" → intentInput s ≠ "" →
    handleAnalyze w s = before ++ after →
    actionWrites before = 0 →
    let s' := during (typeAction text) s before after in
    (∀ q, q ∈ requests (handleAnalyze w s) → scenario_action q = actionInput s) ∧
    ((∃ i a, succeedsAt w i a ∧
             actionInput s' = "" ∧
             points s' = points s ++ [newPoint s w a] ∧
             MoralPoint.action (newPoint s w a) = actionInput s)
     ∨
     (allFail w ∧ actionInput s' = text ∧ points s' = points s)).
Proof.
  intros w s text before after Hact Hint Hsplit Hidle s'.
  assert (Hinput : actionInput s' = foldl applyAction text (handleAnalyze w s)).
  { unfold s', during. rewrite actionInput_run.
    change (actionInput (handle (typeAction text) (run s before))) with text.
    rewrite <- (applyAction_idle text before Hidle) at 1.
    by rewrite <- foldl_app, <- Hsplit. }
  assert (Hpoints : points s' = foldl applyPoints (points s) (handleAnalyze w s)).
  { unfold s', during. rewrite points_run.
    change (points (handle (typeAction text) (run s before))) with (points (run s before)).
    by rewrite points_run, <- applyPoints_app, <- Hsplit. }
  split.
  - intros q Hq. destruct (attempt_cases w) as [(i & a & Hok)|Hall].
    + rewrite (handleAnalyze_resolved w s Hact Hint i a Hok) in Hq.
      change (requests (?e1 :: ?e2 :: ?l)) with (requests l) in Hq.
      rewrite requests_app, requests_failedRounds in Hq.
      change (requests (Request ?q :: ?l)) with (q :: requests l) in Hq.
      rewrite requests_succeed in Hq.
      apply elem_of_app in Hq as [Hq|Hq].
      * by apply elem_of_replicate in Hq as [-> _].
      * by apply list_elem_of_singleton in Hq as ->.
    + rewrite (handleAnalyze_exhausted w s Hact Hint Hall) in Hq.
      change (requests (?e1 :: ?e2 :: ?l)) with (requests l) in Hq.
      rewrite requests_app, requests_failedRounds in Hq.
      change (requests [SetError _; SetIsSimulating _]) with (@nil Prompt) in Hq.
      rewrite app_nil_r in Hq. by apply elem_of_replicate in Hq as [-> _].
  - destruct (attempt_cases w) as [(i & a & Hok)|Hall].
    + left. exists i, a. split; [done|]. split; [|split].
      * rewrite Hinput, (handleAnalyze_resolved w s Hact Hint i a Hok).
        change (foldl applyAction text (?e1 :: ?e2 :: ?l)) with (foldl applyAction text l).
        rewrite foldl_app.
        rewrite (applyAction_idle text (failedRounds _ _ _)) by apply actionWrites_failedRounds.
        unfold succeed, storeYs. by destruct (yCache s !! actionKey s).
      * rewrite Hpoints. by apply (resolved_points w s i a).
      * by destruct (newPoint_fixed s w a) as (_ & ? & _).
    + right. split; [done|].
      rewrite Hinput, Hpoints, (handleAnalyze_exhausted w s Hact Hint Hall).
      by split.
Qed.

Lemma X21_typing_in_flight_witness :
  let s := typed "Steal a loaf of bread" "To feed my family" initialState in
  let s' := during (typeAction "Tell a lie") s
              [SetIsSimulating true; SetError None; Request (promptOf s)]
              (succeed s (steady answerA 5)
                 (fieldsOf (fullPayload 0.5 (-0.25) (-0.5) 0 0.25 0.75))) in
  actionInput s' = "" ∧ length (points s') = 2.
Proof.
  destruct (X21_typing_in_flight (steady answerA 5)
              (typed "Steal a loaf of bread" "To feed my family" initialState)
              "Tell a lie"
              [SetIsSimulating true; SetError None;
               Request (promptOf (typed "Steal a loaf of bread" "To feed my family" initialState))]
              (succeed (typed "Steal a loaf of bread" "To feed my family" initialState)
                 (steady answerA 5)
                 (fieldsOf (fullPayload 0.5 (-0.25) (-0.5) 0 0.25 0.75))))
    as (_ & [(i & a & _ & Hinput & Hpoints & _)|(Hall & _)]).
  - discriminate.
  - discriminate.
  - reflexivity.
  - reflexivity.
  - cbv zeta. split; [exact Hinput|]. rewrite Hpoints, length_app. reflexivity.
  - destruct (Hall 0) as [e He]; [lia|]. discriminate He.
Defined.

(** ** White space in the action text *)

(** X22.  The guard of the handler tests the text as typed, the key is
    made of the trimmed text.  An action text of white space only is
    therefore submitted like any other, and every such text, under one
    mode, has the same key: the mode and the colon. *)
Theorem X22_blank_action_is_submitted :
  ∀ (w : World) (s : State),
    actionInput s ≠ "" → blank (actionInput s) = true → intentInput s ≠ "" →
    actionKey s = mode_name (mode s) +:+ ":" ∧
    ∃ rest, requests (handleAnalyze w s) = promptOf s :: rest.
Proof.
  intros w s Hact Hblank Hint. split.
  - unfold actionKey, cacheKey, Text.trim.
    by rewrite (trimStart_blank_only _ Hblank).
  - rewrite (handleAnalyze_starts w s Hact Hint).
    change (requests (?e1 :: ?e2 :: ?l)) with (requests l).
    cbn [attempts]. change (requests (Request ?q :: ?l)) with (q :: requests l).
    eauto.
Qed.

Lemma X22_blank_action_is_submitted_witness :
  let s := typed "   " "To feed my family" initialState in
  actionKey s = "seismograph:" ∧
  ∃ rest, requests (handleAnalyze (offline 0) s) = promptOf s :: rest.
Proof.
  apply (X22_blank_action_is_submitted (offline 0)
           (typed "   " "To feed my family" initialState)).
  - discriminate.
  - reflexivity.
  - discriminate.
Defined.
